(** * gpuinfo: the jump finder and the parameter sweeps of [app.cpp]

    A shallow embedding of [backends/vulkan/tools/gpuinfo/src/app.cpp]:
    the register-count test ([App::reg_count]) and the buffer cacheline
    test ([App::buf_cacheline_size]), together with the changepoint
    detector [DtJumpFinder] they drive.

    Conventions.
    - [uint32_t] values are [Z] with the wrap-around written out ([u32]).
    - A measured time (a finite [double]) is a rational [Q].  The only
      floating-point arithmetic of [app.cpp] itself is
      [ngrp_full * 1.5 < ngrp_half] on integers below [2^32], which binary64
      computes exactly; the window statistics of the detector are taken in
      exact arithmetic.
    - The GPU is an oracle: the n-th call of [benchmark_on_gpu] returns the
      n-th measurement of the world; every call and every line printed on
      [std::cout] is appended to the trace of the world. *)

From Stdlib Require Import String ZArith QArith Qabs Qminmax List Bool Lia.
Import ListNotations.

Local Open Scope Z_scope.

(* ------------------------------------------------------------------ *)
(** ** Comparisons on times *)

Definition Qltb (a b : Q) : bool :=
  match (a ?= b)%Q with Lt => true | _ => false end.

Definition Qgtb (a b : Q) : bool :=
  match (a ?= b)%Q with Gt => true | _ => false end.

(* ------------------------------------------------------------------ *)
(** ** The detector interface used by [app.cpp]

    [app.cpp] uses [DtJumpFinder<NTap>] through its constructor
    [dj(COMPENSATE, THRESHOLD)] and through [dj.push(time)], which returns
    [true] on a jump and may update the detector. *)

Class JumpFinder (D : Type) : Type := {
  dj_new  : nat -> Q -> Q -> D;
  dj_push : D -> Q -> bool * D
}.

Section Classify.
Context {D : Type} `{JumpFinder D}.

(** The answers of [push] when the samples [xs] are fed one after the
    other, and the detector they leave. *)
Fixpoint classify (dj : D) (xs : list Q) : list bool :=
  match xs with
  | [] => []
  | x :: xs' => fst (dj_push dj x) :: classify (snd (dj_push dj x)) xs'
  end.

Fixpoint feed (dj : D) (xs : list Q) : D :=
  match xs with
  | [] => dj
  | x :: xs' => feed (snd (dj_push dj x)) xs'
  end.

(** Index of the first sample answered [true], if any. *)
Fixpoint first_true (bs : list bool) : option nat :=
  match bs with
  | [] => None
  | true :: _ => Some O
  | false :: bs' => option_map S (first_true bs')
  end.

Definition detect (dj : D) (xs : list Q) : option nat :=
  first_true (classify dj xs).
End Classify.

(* ------------------------------------------------------------------ *)
(** ** [stats.h]: the changepoint detector *)

Module Stats.

Local Open Scope Q_scope.

(** Modelled from the spec: [DtJumpFinder] of [stats.h], which is not among
    the sources.  The detector keeps a window of the last [NTap] accepted
    samples together with its two settings. *)
Record DtJumpFinder : Type := {
  NTap         : nat;
  compensation : Q;
  threshold    : Q;
  window       : list Q  (* oldest sample first *)
}.

(** Modelled from the spec: the constructor
    [DtJumpFinder<NTap>(compensation, threshold)] of [stats.h]; the window
    starts empty. *)
Definition new (ntap : nat) (compensation threshold : Q) : DtJumpFinder :=
  {| NTap := ntap; compensation := compensation; threshold := threshold;
     window := [] |}.

(** Modelled from the spec: the sum that the mean of step 1 divides, as
    [stats.h] is not among the sources. *)
Definition Qsum (xs : list Q) : Q := fold_right Qplus 0 xs.

(** Modelled from the spec: step 1 of the contract, the mean of the
    current window. *)
Definition mean (w : list Q) : Q :=
  Qsum w / inject_Z (Z.of_nat (length w)).

(** Modelled from the spec: step 2 of the contract, the mean absolute
    deviation of the window from its mean. *)
Definition mean_deviation (w : list Q) : Q :=
  mean (map (fun y => Qabs (y - mean w)) w).

(** Modelled from the spec: the bound of step 3,
    [max(threshold_multiplier × mean_deviation, compensation_floor)]. *)
Definition bound (dj : DtJumpFinder) : Q :=
  Qmax (threshold dj * mean_deviation (window dj)) (compensation dj).

(** Modelled from the spec: step 3 of the contract, the test that makes a
    sample a jump. *)
Definition is_jump (dj : DtJumpFinder) (x : Q) : bool :=
  Qgtb (Qabs (x - mean (window dj))) (bound dj).

(** Modelled from the spec: the window of [stats.h] is full once it holds
    [NTap] samples ("window not yet full" in the edge cases). *)
Definition full (dj : DtJumpFinder) : bool :=
  (NTap dj <=? length (window dj))%nat.

(** Modelled from the spec: an update of the window of [stats.h]; the
    settings of the detector stay as they are. *)
Definition with_window (dj : DtJumpFinder) (w : list Q) : DtJumpFinder :=
  {| NTap := NTap dj; compensation := compensation dj;
     threshold := threshold dj; window := w |}.

(** Modelled from the spec: step 4 of the contract, a sample that is not a
    jump enters the window, the oldest one leaving when the window is
    full. *)
Definition accept (dj : DtJumpFinder) (x : Q) : DtJumpFinder :=
  with_window dj ((if full dj then tl (window dj) else window dj) ++ [x]).

(** Modelled from the spec: [DtJumpFinder::push] of [stats.h].  A window
    that is not yet full accumulates without testing; on a full window the
    sample is tested, a jump is reported and leaves the window as it is,
    anything else is accepted. *)
Definition push (dj : DtJumpFinder) (x : Q) : bool * DtJumpFinder :=
  if full dj then
    if is_jump dj x then (true, dj) else (false, accept dj x)
  else (false, accept dj x).

(** Modelled from the spec: the contract of [push] read as a transition
    relation, one rule per case of the text. *)
Inductive push_step (dj : DtJumpFinder) (x : Q) :
  bool -> DtJumpFinder -> Prop :=
| step_accumulate :
    (length (window dj) < NTap dj)%nat ->
    push_step dj x false (with_window dj (window dj ++ [x]))
| step_jump :
    (NTap dj <= length (window dj))%nat ->
    bound dj < Qabs (x - mean (window dj)) ->
    push_step dj x true dj
| step_accept :
    (NTap dj <= length (window dj))%nat ->
    Qabs (x - mean (window dj)) <= bound dj ->
    push_step dj x false (with_window dj (tl (window dj) ++ [x])).


(** Modelled from the spec: the same run of the detector of [stats.h], as
    a function of the samples. *)
Fixpoint run (dj : DtJumpFinder) (xs : list Q) : list bool :=
  match xs with
  | [] => []
  | x :: xs' =>
      let (jump, dj') := push dj x in
      if jump then [true] else false :: run dj' xs'
  end.

(** Modelled from the spec: [DtJumpFinder] of [stats.h] as the detector
    that [app.cpp] drives. *)
#[global] Instance DtJumpFinder_JumpFinder : JumpFinder DtJumpFinder :=
  {| dj_new := new; dj_push := push |}.

End Stats.

(* ------------------------------------------------------------------ *)
(** ** The world of the benchmark: measurements in, trace out *)

(** [uint32_t] arithmetic wraps. *)
Definition u32 (z : Z) : Z := z mod 2 ^ 32.

(** Conversion of a [uint32_t] to [int] (the argument of the cacheline
    [bench] lambda). *)
Definition to_int (z : Z) : Z := (z + 2 ^ 31) mod 2 ^ 32 - 2 ^ 31.

(** One piece of a line sent to [std::cout]. *)
Inductive Tok : Type :=
| Str (s : string)
| Tab
| Num (n : Z)
| Dur (t : Q).

(** The shader a benchmark runs, by the way its name is built. *)
Inductive Shader : Type :=
| reg_count_ (nreg : Z)        (* "reg_count_" + std::to_string(nreg) *)
| shader (name : string).

Inductive Event : Type :=
| Bench (sh : Shader) (global_wg local_wg : Z * Z * Z) (consts : list Z)
| Cout (line : list Tok).

Record World : Type := {
  gpu   : nat -> Q;     (* the n-th measurement the device will give *)
  tick  : nat;          (* measurements taken so far *)
  trace : list Event    (* benchmarks run and lines printed, oldest first *)
}.

(** A computation reads and extends the world; [None] is a run that has no
    result: the fuel of a loop ran out, or the program left defined
    behaviour (a division by zero, a read of an unset local). *)
Definition M (A : Type) : Type := World -> option (A * World).

Definition ret {A} (a : A) : M A := fun w => Some (a, w).

Definition bind {A B} (m : M A) (k : A -> M B) : M B :=
  fun w => match m w with
           | Some (a, w') => k a w'
           | None => None
           end.

Definition stuck {A} : M A := fun _ => None.

Declare Scope m_scope.
Delimit Scope m_scope with M.
Notation "x <- m ;; k" := (bind m (fun x => k))
  (at level 61, m at next level, right associativity) : m_scope.
Notation "' p <- m ;; k" := (bind m (fun x => match x with p => k end))
  (at level 61, p pattern, m at next level, right associativity) : m_scope.
Notation "m ;; k" := (bind m (fun _ => k))
  (at level 61, right associativity) : m_scope.

Definition emit (e : Event) : M unit :=
  fun w => Some (tt, {| gpu := gpu w; tick := tick w;
                        trace := trace w ++ [e] |}).

(** [std::cout << ... << std::endl]. *)
Definition cout (line : list Tok) : M unit := emit (Cout line).

(** [benchmark_on_gpu(shader_name, 100, ...)] around one
    [submit_compute_job]: the dispatch is recorded and the device gives its
    next measurement. *)
Definition benchmark_on_gpu (sh : Shader) (global_wg local_wg : Z * Z * Z)
    (consts : list Z) : M Q :=
  fun w => Some (gpu w (tick w),
                 {| gpu := gpu w; tick := S (tick w);
                    trace := trace w ++ [Bench sh global_wg local_wg consts] |}).

(** Reading a local that may not have been set. *)
Definition get_local {A} (v : option A) : M A :=
  match v with Some a => ret a | None => stuck end.

(** The measurements a run starting in [w] will see next. *)
Definition samples (w : World) (n : nat) : list Q :=
  map (fun j => gpu w (tick w + j)%nat) (seq 0 n).

(** The world after [n] more measurements and the events [evs]. *)
Definition advance (w : World) (n : nat) (evs : list Event) : World :=
  {| gpu := gpu w; tick := (tick w + n)%nat; trace := trace w ++ evs |}.

(** What a sweep leaves on the trace when it starts at [i], steps by one and
    measures [xs]: a benchmark and a printed line for each candidate. *)
Fixpoint sweep_trace (ev : Z -> Event) (line : Z -> Q -> list Tok) (i : Z)
    (xs : list Q) : list Event :=
  match xs with
  | [] => []
  | x :: xs' => ev i :: Cout (line i x) :: sweep_trace ev line (i + 1) xs'
  end.

(** A benchmark lambda takes one measurement and leaves one event. *)
Definition bench_like (bench : Z -> M Q) (ev : Z -> Event) : Prop :=
  forall i w, bench i w = Some (gpu w (tick w), advance w 1 [ev i]).

Section Jumps.
Context {D : Type} `{JumpFinder D}.

(** Fed the measurements to come, [dj] answers its first jump at the
    measurement of index [k]. *)
Definition first_jump_at (dj : D) (w : World) (k : nat) : Prop :=
  detect dj (samples w (S k)) = Some k.

(** Fed the next [n] measurements, [dj] answers no jump. *)
Definition no_jump_in (dj : D) (w : World) (n : nat) : Prop :=
  detect dj (samples w n) = None.
End Jumps.

(* ------------------------------------------------------------------ *)
(** ** [app.cpp] *)

Module App.

Local Open Scope string_scope.
Local Open Scope Z_scope.
Local Open Scope m_scope.

(** The members of [class App], set by its constructor from the device. *)
Record App : Type := {
  buf_cache_size_ : Z;   (* size_t *)
  sm_count_       : Z;   (* uint32_t *)
  nthread_logic_  : Z    (* uint32_t *)
}.

Definition sizeof_float : Z := 4.

(** The constants of [App::reg_count]. *)
Module RegCount.
Definition NREG_MIN : Z := 1.
Definition NREG_MAX : Z := 512.
Definition NREG_STEP : Z := 1.

Definition COMPENSATE : Q := 1 # 100.   (* 0.01 *)
Definition THRESHOLD : Q := 3.

Definition NGRP_MIN : Z := 1.
Definition NGRP_MAX : Z := 64.
Definition NGRP_STEP : Z := 1.
End RegCount.

(** The constants of [App::buf_cacheline_size]. *)
Module BufCacheline.
Definition COMPENSATE : Q := 1 # 100.   (* 0.01 *)
Definition THRESHOLD : Q := 10.

Definition PITCH (app : App) : Z :=
  u32 (buf_cache_size_ app / nthread_logic_ app).
Definition BUF_SIZE (app : App) : Z := u32 (buf_cache_size_ app).
Definition MAX_STRIDE (app : App) : Z := PITCH app.
End BufCacheline.

(** What [reg_count] reports in its closing lines. *)
Record RegCountReport : Type := {
  NITER     : Z;
  nreg_max  : Z;
  ngrp_full : Z;
  ngrp_half : Z;
  reg_ty    : string
}.

Section WithDetector.
Context {D : Type} `{JumpFinder D}.

(** [ensure_min_niter(min_time, NITER, run)] of [utils.h] is not among the
    sources: it is given the benchmark as a function of [NITER] and
    leaves the [NITER] it settles on. *)
Variable ensure_min_niter : Z -> (Z -> M Q) -> M Z.

(** The sweep loop shared by the three tests:
    [for (; i <= hi; i += step) { time = bench(i); cout << ...;
       if (dj.push(time)) { ...; break; } }].
    The result is the value of [i] when the loop is left, whether it was
    left by the [if], and the detector.  What the [if] does before it
    leaves differs between the tests and is written after the loop, on
    the flag. *)
Fixpoint sweep (fuel : nat) (hi step : Z) (bench : Z -> M Q)
    (line : Z -> Q -> list Tok) (i : Z) (dj : D) : M (Z * bool * D) :=
  match fuel with
  | O => stuck
  | S fuel' =>
      if i <=? hi then
        time <- bench i ;;
        cout (line i time) ;;
        let (jump, dj') := dj_push dj time in
        if jump then ret (i, true, dj')
        else sweep fuel' hi step bench line (u32 (i + step)) dj'
      else ret (i, false, dj)
  end.

(** *** [App::reg_count] *)
Section reg_count.
Import RegCount.

(** The [bench] lambda, lines 60-78, and the event it leaves. *)
Definition reg_bench (NITER ngrp nreg : Z) : M Q :=
  benchmark_on_gpu (reg_count_ nreg) (1, ngrp, 1) (1, 1, 1) [NITER].

Definition reg_bench_event (NITER ngrp nreg : Z) : Event :=
  Bench (reg_count_ nreg) (1, ngrp, 1) (1, 1, 1) [NITER].

(** The lines printed by the test. *)
Definition nreg_line (nreg : Z) (time : Q) : list Tok :=
  [Str "Testing nreg="; Tab; Num nreg; Tab; Str "Time="; Tab; Dur time].

Definition nreg_unable : list Tok :=
  [Str "Unable to conclude a maximal register count"].

Definition ngrp_line (nreg ngrp : Z) (time : Q) : list Tok :=
  [Str "Testing occupation (nreg="; Num nreg; Str "); ngrp="; Num ngrp;
   Str ", time="; Dur time; Str " us"].

Definition ngrp_found (nreg ngrp : Z) : list Tok :=
  [Str "Using "; Num nreg; Str " registers can have "; Num ngrp;
   Str " concurrent single-thread workgroups"].

Definition ngrp_unable (nreg : Z) : list Tok :=
  [Str "Unable to conclude a maximum number of concurrent single-thread workgroups when ";
   Num nreg; Str " registers are occupied"].

(** Line 86 and line 106: [DtJumpFinder<5> dj(COMPENSATE, THRESHOLD)]. *)
Definition reg_count_dj : D := dj_new 5 COMPENSATE THRESHOLD.
Definition find_ngrp_dj : D := dj_new 5 COMPENSATE THRESHOLD.

(** Lines 84-97: the sweep over [nreg].  The result is [nreg] after the
    loop and [nreg_max], which only the [if] sets. *)
Definition nreg_sweep (fuel : nat) (NITER : Z) : M (Z * option Z) :=
  let dj := reg_count_dj in
  '(nreg, jump, _) <-
    sweep fuel NREG_MAX NREG_STEP (fun nreg => reg_bench NITER 1 nreg)
      nreg_line NREG_MIN dj ;;
  if jump then
    let nreg := u32 (nreg - NREG_STEP) in
    ret (nreg, Some nreg)
  else ret (nreg, None).

(** Lines 84-103: the sweep and the test that follows it. *)
Definition find_nreg_max (fuel : nat) (NITER : Z) : M Z :=
  '(nreg, nreg_max) <- nreg_sweep fuel NITER ;;
  if NREG_MAX <=? nreg then
    cout nreg_unable ;;
    ret NREG_STEP
  else
    nreg_max <- get_local nreg_max ;;
    cout [Num nreg_max; Str " registers are available at most"] ;;
    ret nreg_max.

(** The [find_ngrp_by_nreg] lambda, lines 105-123. *)
Definition find_ngrp_by_nreg (fuel : nat) (NITER nreg : Z) : M Z :=
  let dj := find_ngrp_dj in
  '(ngrp, jump, _) <-
    sweep fuel NGRP_MAX NGRP_STEP (fun ngrp => reg_bench NITER ngrp nreg)
      (ngrp_line nreg) NGRP_MIN dj ;;
  if jump then
    let ngrp := u32 (ngrp - NGRP_STEP) in
    cout (ngrp_found nreg ngrp) ;;
    ret ngrp
  else
    cout (ngrp_unable nreg) ;;
    ret 1.

(** Lines 129-140. *)
Definition classify_reg_ty (nreg_max ngrp_full ngrp_half : Z)
    : M string :=
  if Qltb (inject_Z ngrp_full * (15 # 10)) (inject_Z ngrp_half) then
    cout [Str "All physical threads in an sm share "; Num nreg_max;
          Str " registers"] ;;
    ret "Pooled"
  else
    cout [Str "Each physical thread has "; Num nreg_max;
          Str " registers"] ;;
    ret "Dedicated".

Definition reg_count (fuel : nat) : M RegCountReport :=
  cout [] ;;
  cout [Str "------ Register Count ------"] ;;
  cout [Str "Calculating NITER..."] ;;
  NITER <- ensure_min_niter 1000
             (fun NITER => reg_bench NITER 1 NREG_MIN) ;;
  cout [Str "NITER,"; Num NITER] ;;
  nreg_max <- find_nreg_max fuel NITER ;;
  ngrp_full <- find_ngrp_by_nreg fuel NITER nreg_max ;;
  ngrp_half <- find_ngrp_by_nreg fuel NITER (nreg_max / 2) ;;
  reg_ty <- classify_reg_ty nreg_max ngrp_full ngrp_half ;;
  cout [] ;;
  cout [] ;;
  cout [Str "NITER,"; Num NITER] ;;
  cout [Str "Max registers,"; Num nreg_max] ;;
  cout [Str "Concurrent full single thread workgroups,"; Num ngrp_full] ;;
  cout [Str "Concurrent half single thread workgroups,"; Num ngrp_half] ;;
  cout [Str "Register type,"; Str reg_ty] ;;
  ret {| NITER := NITER; nreg_max := nreg_max; ngrp_full := ngrp_full;
         ngrp_half := ngrp_half; reg_ty := reg_ty |}.
End reg_count.

(** *** [App::buf_cacheline_size] *)
Section buf_cacheline_size.
Import BufCacheline.
Variable app : App.

(** The [bench] lambda, lines 166-186, whose parameter is an [int],
    and the event it leaves. *)
Definition cacheline_bench (NITER stride : Z) : M Q :=
  benchmark_on_gpu (shader "buf_cacheline_size")
    (nthread_logic_ app, 1, 1) (nthread_logic_ app, 1, 1)
    [NITER; to_int stride; PITCH app].

Definition cacheline_bench_event (NITER stride : Z) : Event :=
  Bench (shader "buf_cacheline_size")
    (nthread_logic_ app, 1, 1) (nthread_logic_ app, 1, 1)
    [NITER; to_int stride; PITCH app].

(** The lines printed by the test. *)
Definition stride_line (stride : Z) (time : Q) : list Tok :=
  [Str "Testing stride="; Tab; Num stride; Tab; Str ", time="; Tab;
   Dur time].

Definition cacheline_unable : list Tok :=
  [Str "Unable to conclude a top level buffer cacheline size."].

Definition cacheline_report (cacheline_size : Z) : list Tok :=
  [Str "BufTopLevelCachelineSize,"; Num cacheline_size].

(** Line 192: [DtJumpFinder<5> dj(COMPENSATE, THRESHOLD)]. *)
Definition cacheline_dj : D := dj_new 5 COMPENSATE THRESHOLD.

(** Lines 190-203: the sweep over [stride].  The result is [stride]
    after the loop and [cacheline_size], which only the [if] sets. *)
Definition stride_sweep (fuel : nat) (NITER : Z) : M (Z * option Z) :=
  let dj := cacheline_dj in
  '(stride, jump, _) <-
    sweep fuel (MAX_STRIDE app) 1
      (fun stride => cacheline_bench NITER stride) stride_line 1 dj ;;
  if jump then ret (stride, Some (u32 (stride * sizeof_float)))
  else ret (stride, None).

(** Lines 190-208: the sweep and the test that follows it. *)
Definition find_cacheline_size (fuel : nat) (NITER : Z) : M Z :=
  '(stride, cacheline_size) <- stride_sweep fuel NITER ;;
  cacheline_size <-
    (if MAX_STRIDE app <=? stride then
       cout cacheline_unable ;;
       ret (Some (MAX_STRIDE app))
     else ret cacheline_size) ;;
  get_local cacheline_size.

Definition buf_cacheline_size (fuel : nat) : M Z :=
  cout [] ;;
  cout [Str "------ Buffer Cacheline Size ------"] ;;
  if nthread_logic_ app =? 0 then stuck   (* division by zero *)
  else
    NITER <- ensure_min_niter 1000
               (fun NITER => cacheline_bench NITER 1) ;;
    cacheline_size <- find_cacheline_size fuel NITER ;;
    cout (cacheline_report cacheline_size) ;;
    ret cacheline_size.
End buf_cacheline_size.

End WithDetector.
End App.

(* ------------------------------------------------------------------ *)
(** ** [app.cpp]: the bandwidth test *)

Module Bandwidth.

Import App.
Local Open Scope string_scope.
Local Open Scope Z_scope.
Local Open Scope m_scope.

(** The constants of [App::buf_bandwidth], lines 221-238, in [uint32_t]
    arithmetic. *)
Definition RANGE : Z := 128 * 1024 * 1024.
Definition NFLUSH : Z := 4.
Definition NUNROLL : Z := 16.
Definition NITER : Z := 10.
Definition VEC_WIDTH : Z := 4.
Definition VEC_SIZE : Z := u32 (VEC_WIDTH * sizeof_float).
Definition NVEC : Z := RANGE / VEC_SIZE.
Definition NREAD_PER_THREAD : Z := u32 (NUNROLL * NITER).
Definition NTHREAD : Z := NVEC / NREAD_PER_THREAD.

(** Lines 240-243. *)
Definition local_x (app : App) : Z := nthread_logic_ app.

Definition global_x (app : App) : Z :=
  u32 (u32 (u32 (NTHREAD / local_x app * local_x app) * sm_count_ app)
       * NFLUSH).

(** [DBL_MAX] of [<cfloat>] for binary64. *)
Definition DBL_MAX : Q := inject_Z (2 ^ 1024 - 2 ^ 971).

(** [std::max(a, b)] is [(a < b) ? b : a] and [std::min(a, b)] is
    [(b < a) ? b : a]. *)
Definition std_max (a b : Q) : Q := if Qltb a b then b else a.
Definition std_min (a b : Q) : Q := if Qltb b a then b else a.

(** Lines 247 and 252. *)
Definition nvec_access (access_size : Z) : Z := access_size / VEC_SIZE.
Definition addr_mask (access_size : Z) : Z := u32 (nvec_access access_size - 1).

(** Lines 274-275: the bytes moved, and the bandwidth they give for a
    measured time, [SIZE_TRANS * 1e-3 / time], as the exact quotient that
    binary64 rounds.  For a time of 0 the code divides by zero in floating
    point, which gives no rational: the facts about bandwidths are stated
    for positive times. *)
Definition SIZE_TRANS (app : App) : Z :=
  u32 (u32 (global_x app * NREAD_PER_THREAD) * VEC_SIZE).

Definition gbps_of (app : App) (time : Q) : Q :=
  (inject_Z (SIZE_TRANS app) * (1 # 1000) / time)%Q.

Definition newline : string := String (Ascii.ascii_of_nat 10) EmptyString.

(** The event and the line that one call of the [bench] lambda leaves. *)
Definition bandwidth_bench_event (app : App) (access_size : Z) : Event :=
  Bench (shader "buf_bandwidth") (global_x app, 1, 1) (local_x app, 1, 1)
    [NITER; addr_mask access_size; local_x app].

Definition bandwidth_line (access_size : Z) (gbps time : Q) : list Tok :=
  [Str "Memory bandwidth accessing "; Tab; Num access_size; Tab;
   Str "B unique data is "; Tab; Dur gbps; Str " "; Tab; Str "gbps (";
   Tab; Dur time; Tab; Str "us)"].

(** The [bench] lambda, lines 245-280. *)
Definition bandwidth_bench (app : App) (access_size : Z) : M Q :=
  time <- benchmark_on_gpu (shader "buf_bandwidth")
            (global_x app, 1, 1) (local_x app, 1, 1)
            [NITER; addr_mask access_size; local_x app] ;;
  let gbps := gbps_of app time in
  cout (bandwidth_line access_size gbps time) ;;
  ret gbps.

(** Lines 284-289:
    [for (access_size = VEC_SIZE; access_size < RANGE; access_size *= 2)]. *)
Fixpoint bandwidth_loop (fuel : nat) (app : App) (access_size : Z)
    (max_bandwidth min_bandwidth : Q) : M (Q * Q) :=
  match fuel with
  | O => stuck
  | S fuel' =>
      if access_size <? RANGE then
        gbps <- bandwidth_bench app access_size ;;
        let max_bandwidth := std_max gbps max_bandwidth in
        let min_bandwidth := std_min gbps min_bandwidth in
        bandwidth_loop fuel' app (u32 (access_size * 2))
          max_bandwidth min_bandwidth
      else ret (max_bandwidth, min_bandwidth)
  end.

Definition bandwidth_header : list Tok :=
  [Str (newline ++ "------ Memory Bandwidth ------")].

Definition bandwidth_report (max_bandwidth min_bandwidth : Q)
    : list (list Tok) :=
  [[Str "MaxBandwidth (GB/s),"; Dur max_bandwidth];
   [Str "MinBandwidth (GB/s),"; Dur min_bandwidth]].

(** [App::buf_bandwidth]; the result is the pair it reports,
    [(max_bandwidth, min_bandwidth)]. *)
Definition buf_bandwidth (app : App) (fuel : nat) : M (Q * Q) :=
  cout bandwidth_header ;;
  if nthread_logic_ app =? 0 then stuck   (* NTHREAD / local_x *)
  else
    '(max_bandwidth, min_bandwidth) <-
      bandwidth_loop fuel app VEC_SIZE 0 DBL_MAX ;;
    cout [Str "MaxBandwidth (GB/s),"; Dur max_bandwidth] ;;
    cout [Str "MinBandwidth (GB/s),"; Dur min_bandwidth] ;;
    ret (max_bandwidth, min_bandwidth).

(** What the loop leaves behind, stated on the measurements to come: the
    event and the line of its [j]-th turn, whose access size is
    [VEC_SIZE * 2^j], and the two running bounds after a bandwidth [g]. *)
Definition bandwidth_turn (app : App) (w : World) (j : nat) : list Event :=
  let time := gpu w (tick w + j)%nat in
  let access_size := VEC_SIZE * 2 ^ Z.of_nat j in
  [bandwidth_bench_event app access_size;
   Cout (bandwidth_line access_size (gbps_of app time) time)].

Definition track (acc : Q * Q) (g : Q) : Q * Q :=
  (std_max g (fst acc), std_min g (snd acc)).

End Bandwidth.

(* ------------------------------------------------------------------ *)
(** ** [app.cpp]: the constructor and [main] *)

Module Main.

Import App.
Local Open Scope string_scope.
Local Open Scope Z_scope.
Local Open Scope m_scope.




Section WithDetector.
Context {D : Type} `{JumpFinder D}.
Variable ensure_min_niter : Z -> (Z -> M Q) -> M Z.


End WithDetector.
End Main.

(* ------------------------------------------------------------------ *)
(** ** Devices and helpers to run the tests on *)

Module Examples.

(** A stand-in for [ensure_min_niter]: one trial run of the benchmark,
    after which [NITER] is settled at 1000. *)
Definition one_trial (min_time : Z) (run : Z -> M Q) : M Z :=
  (_ <- run 1000 ;; ret 1000)%M.

(** A device on which every measurement takes [x]. *)
Definition flat_world (x : Q) : World :=
  {| gpu := fun _ => x; tick := 0; trace := [] |}.

(** A device whose measurements take [x] before the one of index [knee]
    and [y] from there on. *)
Definition knee_world (x y : Q) (knee : nat) : World :=
  {| gpu := fun n => if (n <? knee)%nat then x else y;
     tick := 0; trace := [] |}.

(** A device with a cache of 24 bytes and 4 logical threads:
    [MAX_STRIDE] is 6. *)
Definition small_cache : App.App :=
  {| App.buf_cache_size_ := 24; App.sm_count_ := 1;
     App.nthread_logic_ := 4 |}.

(** A device that reports no global memory cache. *)
Definition no_cache : App.App :=
  {| App.buf_cache_size_ := 0; App.sm_count_ := 2;
     App.nthread_logic_ := 256 |}.

(** A device with a cache of 64 KiB, 4 compute units and 1024 logical
    threads: [MAX_STRIDE] is 64. *)
Definition phone_gpu : App.App :=
  {| App.buf_cache_size_ := 65536; App.sm_count_ := 4;
     App.nthread_logic_ := 1024 |}.


(** The world that [one_trial] leaves when it calibrates [reg_count] and
    [buf_cacheline_size] on [w0]: their first lines and one benchmark. *)
Definition reg_calibrated (w0 : World) : World :=
  advance w0 1
    [Cout []; Cout [Str "------ Register Count ------"];
     Cout [Str "Calculating NITER..."]; App.reg_bench_event 1000 1 1].

Definition cacheline_calibrated (app : App.App) (w0 : World) : World :=
  advance w0 1
    [Cout []; Cout [Str "------ Buffer Cacheline Size ------"];
     App.cacheline_bench_event app 1000 1].

(** A device whose cache size over its single logical thread is
    [2^32 - 1]. *)
Definition huge_pitch : App.App :=
  {| App.buf_cache_size_ := 2 ^ 32 - 1; App.sm_count_ := 1;
     App.nthread_logic_ := 1 |}.

End Examples.

(* ================================================================== *)
(** * Facts *)

(** ** Comparisons *)

Lemma Qltb_lt (a b : Q) : Qltb a b = true <-> (a < b)%Q.
Proof.
  unfold Qltb. rewrite Qlt_alt.
  destruct (a ?= b)%Q; split; congruence.
Qed.

Lemma Qgtb_gt (a b : Q) : Qgtb a b = true <-> (b < a)%Q.
Proof.
  unfold Qgtb. rewrite Qgt_alt.
  destruct (a ?= b)%Q; split; congruence.
Qed.

Lemma Qgtb_false (a b : Q) : Qgtb a b = false <-> (a <= b)%Q.
Proof.
  unfold Qgtb. rewrite Qle_alt.
  destruct (a ?= b)%Q; split; congruence.
Qed.

(** ** Feeding a detector *)

Section ClassifyFacts.
Context {D : Type} `{JumpFinder D}.

Lemma classify_app (dj : D) xs ys :
  classify dj (xs ++ ys) = classify dj xs ++ classify (feed dj xs) ys.
Proof.
  revert dj. induction xs as [|x xs IH]; intros dj; cbn; auto.
  now rewrite IH.
Qed.

Lemma feed_app (dj : D) xs ys :
  feed dj (xs ++ ys) = feed (feed dj xs) ys.
Proof.
  revert dj. induction xs as [|x xs IH]; intros dj; cbn; auto.
Qed.

Lemma classify_length (dj : D) xs : length (classify dj xs) = length xs.
Proof.
  revert dj. induction xs as [|x xs IH]; intros dj; cbn; auto.
Qed.

Lemma first_true_all_false n : first_true (repeat false n) = None.
Proof. induction n as [|n IH]; cbn; auto. now rewrite IH. Qed.

Lemma first_true_found n bs :
  first_true (repeat false n ++ true :: bs) = Some n.
Proof. induction n as [|n IH]; cbn; auto. now rewrite IH. Qed.
End ClassifyFacts.

(** ** The detector *)

Module StatsFacts.
Import Stats.
Local Open Scope Q_scope.

Lemma full_true dj :
  full dj = true <-> (NTap dj <= length (window dj))%nat.
Proof. unfold full. apply Nat.leb_le. Qed.

Lemma full_false dj :
  full dj = false <-> (length (window dj) < NTap dj)%nat.
Proof. unfold full. rewrite Nat.leb_gt. reflexivity. Qed.

Lemma is_jump_true dj x :
  is_jump dj x = true <-> bound dj < Qabs (x - mean (window dj)).
Proof. unfold is_jump. apply Qgtb_gt. Qed.

Lemma is_jump_false dj x :
  is_jump dj x = false <-> Qabs (x - mean (window dj)) <= bound dj.
Proof. unfold is_jump. apply Qgtb_false. Qed.

(** The three cases of [push]. *)
Lemma push_accumulate dj x :
  (length (window dj) < NTap dj)%nat ->
  push dj x = (false, with_window dj (window dj ++ [x])).
Proof.
  intros Hlt. apply full_false in Hlt.
  unfold push, accept. rewrite Hlt. reflexivity.
Qed.

Lemma push_jump dj x :
  (NTap dj <= length (window dj))%nat ->
  bound dj < Qabs (x - mean (window dj)) ->
  push dj x = (true, dj).
Proof.
  intros Hfull Hj. apply full_true in Hfull. apply is_jump_true in Hj.
  unfold push. rewrite Hfull, Hj. reflexivity.
Qed.

Lemma push_accept dj x :
  (NTap dj <= length (window dj))%nat ->
  Qabs (x - mean (window dj)) <= bound dj ->
  push dj x = (false, with_window dj (tl (window dj) ++ [x])).
Proof.
  intros Hfull Hj. apply full_true in Hfull. apply is_jump_false in Hj.
  unfold push, accept. rewrite Hfull, Hj. reflexivity.
Qed.


Lemma push_step_sound dj x b dj' :
  push_step dj x b dj' -> push dj x = (b, dj').
Proof.
  intros Hs. inversion Hs; subst.
  - now apply push_accumulate.
  - now apply push_jump.
  - now apply push_accept.
Qed.




(** [push] never touches the settings. *)
Lemma push_settings dj x :
  NTap (snd (push dj x)) = NTap dj /\
  compensation (snd (push dj x)) = compensation dj /\
  threshold (snd (push dj x)) = threshold dj.
Proof.
  unfold push, accept.
  destruct (full dj); [destruct (is_jump dj x)|]; cbn; auto.
Qed.

Lemma feed_settings dj xs :
  NTap (feed dj xs) = NTap dj /\
  compensation (feed dj xs) = compensation dj /\
  threshold (feed dj xs) = threshold dj.
Proof.
  revert dj. induction xs as [|x xs IH]; intros dj; cbn; auto.
  destruct (IH (snd (push dj x))) as (-> & -> & ->).
  apply push_settings.
Qed.

(** The window stays within its capacity. *)
Lemma push_capacity dj x :
  (1 <= NTap dj)%nat ->
  (length (window dj) <= NTap dj)%nat ->
  (length (window (snd (push dj x))) <= NTap dj)%nat.
Proof.
  intros Hn Hle.
  destruct (Nat.lt_ge_cases (length (window dj)) (NTap dj)) as [Hlt | Hge].
  - rewrite (push_accumulate dj x Hlt). cbn.
    rewrite length_app. cbn. lia.
  - destruct (is_jump dj x) eqn:Hj.
    + apply is_jump_true in Hj. rewrite (push_jump dj x Hge Hj). exact Hle.
    + apply is_jump_false in Hj. rewrite (push_accept dj x Hge Hj). cbn.
      rewrite length_app. cbn.
      destruct (window dj) as [|y w]; cbn in *; lia.
Qed.

Lemma feed_capacity dj xs :
  (1 <= NTap dj)%nat ->
  (length (window dj) <= NTap dj)%nat ->
  (length (window (feed dj xs)) <= NTap dj)%nat.
Proof.
  revert dj. induction xs as [|x xs IH]; intros dj Hn Hle; cbn; auto.
  destruct (push_settings dj x) as (Hs & _).
  rewrite <- Hs. apply IH; rewrite Hs; auto using push_capacity.
Qed.

(** A sample answered [false] is accepted. *)
Lemma push_false dj x :
  fst (push dj x) = false -> snd (push dj x) = accept dj x.
Proof.
  unfold push. destruct (full dj); [destruct (is_jump dj x)|]; cbn;
    congruence.
Qed.

(** As long as no jump is answered, the window holds the last [NTap]
    samples it was given, in their order. *)
Lemma window_last_accepted dj xs :
  (1 <= NTap dj)%nat ->
  (length (window dj) <= NTap dj)%nat ->
  classify dj xs = repeat false (length xs) ->
  window (feed dj xs)
  = skipn (length (window dj ++ xs) - NTap dj) (window dj ++ xs).
Proof.
  revert dj. induction xs as [|x xs IH]; intros dj HN Hle Hc.
  - cbn. rewrite app_nil_r.
    replace (length (window dj) - NTap dj)%nat with 0%nat by lia.
    reflexivity.
  - cbn in Hc. injection Hc as Hx Hc.
    cbn [feed dj_push DtJumpFinder_JumpFinder] in *.
    pose proof (push_capacity dj x HN Hle) as Hcap.
    destruct (push_settings dj x) as (Hs & _).
    rewrite (push_false dj x Hx) in *.
    rewrite IH by (rewrite ?Hs; auto).
    rewrite Hs. unfold accept. cbn [window with_window].
    destruct (full dj) eqn:Hfull.
    + apply full_true in Hfull.
      destruct (window dj) as [|y w] eqn:Hw; [cbn in Hfull; lia|].
      cbn [tl length] in *. rewrite <- app_assoc. cbn [List.app length].
      assert (HNw : NTap dj = S (length w)) by lia.
      rewrite HNw, !length_app. cbn [length].
      replace (length w + S (length xs) - S (length w))%nat
        with (length xs) by lia.
      replace (S (length w + S (length xs)) - S (length w))%nat
        with (S (length xs)) by lia.
      reflexivity.
    + rewrite <- app_assoc. reflexivity.
Qed.

(** Filling the window. *)
Lemma feed_accumulate dj xs :
  (length (window dj) + length xs <= NTap dj)%nat ->
  classify dj xs = repeat false (length xs) /\
  window (feed dj xs) = window dj ++ xs.
Proof.
  revert dj. induction xs as [|x xs IH]; intros dj Hle; cbn in *.
  - now rewrite app_nil_r.
  - assert (Hlt : (length (window dj) < NTap dj)%nat) by lia.
    rewrite (push_accumulate dj x Hlt). cbn.
    destruct (IH (with_window dj (window dj ++ [x]))) as [Hc Hw].
    + cbn. rewrite length_app. cbn. lia.
    + rewrite Hc, Hw. cbn. now rewrite <- app_assoc.
Qed.

(** *** Flat windows *)

Lemma Qsum_repeat v n :
  Qsum (repeat v n) == inject_Z (Z.of_nat n) * v.
Proof.
  induction n as [|n IH].
  - cbn. ring.
  - cbn [repeat Qsum fold_right]. fold (Qsum (repeat v n)).
    rewrite IH, Nat2Z.inj_succ. unfold Z.succ.
    rewrite inject_Z_plus. ring.
Qed.

Lemma mean_repeat v n : (1 <= n)%nat -> mean (repeat v n) == v.
Proof.
  intros Hn. unfold mean.
  rewrite repeat_length, Qsum_repeat.
  field. intros Hz.
  apply (proj1 (inject_Z_injective (Z.of_nat n) 0)) in Hz. lia.
Qed.

Lemma mean_deviation_repeat v n :
  (1 <= n)%nat -> mean_deviation (repeat v n) == 0.
Proof.
  intros Hn. unfold mean_deviation.
  rewrite map_repeat, (mean_repeat _ n Hn), (mean_repeat v n Hn).
  setoid_replace (v - v) with 0 by ring. reflexivity.
Qed.

Lemma bound_flat dj v n :
  (1 <= n)%nat -> window dj = repeat v n ->
  bound dj == Qmax 0 (compensation dj).
Proof.
  intros Hn Hw. unfold bound.
  rewrite Hw, (mean_deviation_repeat v n Hn).
  setoid_replace (threshold dj * 0) with 0 by ring. reflexivity.
Qed.

(** On a flat window the test compares the distance to the flat value
    with the floor alone. *)
Lemma is_jump_flat dj v n x :
  (1 <= n)%nat -> window dj = repeat v n ->
  is_jump dj x = true <-> Qmax 0 (compensation dj) < Qabs (x - v).
Proof.
  intros Hn Hw. rewrite is_jump_true.
  rewrite (bound_flat dj v n Hn Hw), Hw, (mean_repeat v n Hn).
  reflexivity.
Qed.

Lemma is_jump_same dj v n :
  (1 <= n)%nat -> window dj = repeat v n -> is_jump dj v = false.
Proof.
  intros Hn Hw. destruct (is_jump dj v) eqn:Hj; auto.
  apply (is_jump_flat dj v n v Hn Hw) in Hj.
  exfalso. apply (Qlt_not_le _ _ Hj).
  setoid_replace (v - v) with 0 by ring.
  apply Q.le_max_l.
Qed.

Lemma repeat_snoc {A} (v : A) n : repeat v n ++ [v] = repeat v (S n).
Proof. symmetry. apply repeat_cons. Qed.

Lemma push_flat dj v n :
  (1 <= NTap dj)%nat -> window dj = repeat v n -> (n <= NTap dj)%nat ->
  push dj v = (false, with_window dj (repeat v (Nat.min (S n) (NTap dj)))).
Proof.
  intros HN Hw Hn.
  destruct (Nat.lt_ge_cases (length (window dj)) (NTap dj)) as [Hlt | Hge].
  - rewrite (push_accumulate dj v Hlt).
    rewrite Hw, repeat_length in *. rewrite repeat_snoc.
    do 3 f_equal. lia.
  - rewrite push_accept; auto.
    + rewrite Hw, repeat_length in *.
      assert (n = NTap dj) by lia. subst n.
      destruct (NTap dj) as [|m] eqn:Hm; [lia|].
      cbn [repeat tl]. rewrite repeat_snoc.
      do 3 f_equal. lia.
    + apply is_jump_false. rewrite Hw, repeat_length in Hge.
      apply (is_jump_same dj v n); auto. lia.
Qed.

Lemma feed_flat dj v n k :
  (1 <= NTap dj)%nat -> window dj = repeat v n -> (n <= NTap dj)%nat ->
  classify dj (repeat v k) = repeat false k /\
  window (feed dj (repeat v k)) = repeat v (Nat.min (n + k) (NTap dj)).
Proof.
  revert dj n. induction k as [|k IH]; intros dj n HN Hw Hn.
  - cbn. split; auto. rewrite Hw. f_equal. lia.
  - cbn [repeat classify feed dj_push DtJumpFinder_JumpFinder].
    rewrite (push_flat dj v n HN Hw Hn). cbn [fst snd].
    assert (Hm : (Nat.min (S n) (NTap dj) <= NTap dj)%nat) by lia.
    destruct (IH (with_window dj (repeat v (Nat.min (S n) (NTap dj))))
                (Nat.min (S n) (NTap dj)) HN eq_refl Hm) as [Hc Hf].
    rewrite Hc, Hf. cbn [NTap with_window]. split; auto. f_equal. lia.
Qed.

(** *** The claims about the detector *)



(** C4.  The window of a detector of capacity [ntap >= 1] (5 in the
    program) never holds more than [ntap] samples, and a sample that is
    not a jump pushed on a full window evicts the oldest one: the rest
    moves up and the new sample comes last. *)
Theorem window_bounded_fifo (ntap : nat) (c t : Q) (xs : list Q) :
  (1 <= ntap)%nat ->
  let dj := feed (new ntap c t) xs in
  (length (window dj) <= ntap)%nat /\
  (forall oldest rest x,
      window dj = oldest :: rest ->
      length (window dj) = ntap ->
      fst (push dj x) = false ->
      window (snd (push dj x)) = rest ++ [x]).
Proof.
  intros Hn dj.
  destruct (feed_settings (new ntap c t) xs) as (HN & _).
  fold dj in HN. cbn in HN.
  split.
  - apply (feed_capacity (new ntap c t) xs); cbn; lia.
  - intros oldest rest x Hw Hlen Hnj.
    assert (Hfull : (NTap dj <= length (window dj))%nat) by lia.
    destruct (is_jump dj x) eqn:Hj.
    + apply is_jump_true in Hj.
      rewrite (push_jump dj x Hfull Hj) in Hnj. discriminate.
    + apply is_jump_false in Hj.
      rewrite (push_accept dj x Hfull Hj). cbn. now rewrite Hw.
Qed.

Lemma window_bounded_fifo_witness :
  let dj := feed App.reg_count_dj [1; 2; 3; 4; 5; 6; 7] in
  (length (window dj) <= 5)%nat /\
  window (snd (push dj (15 # 2))) = [4; 5; 6; 7; 15 # 2].
Proof.
  destruct (window_bounded_fifo 5 App.RegCount.COMPENSATE
              App.RegCount.THRESHOLD [1; 2; 3; 4; 5; 6; 7])
    as [Hcap Hfifo]; [lia|].
  split; [exact Hcap|].
  apply (Hfifo 3 [4; 5; 6; 7] (15 # 2)); reflexivity.
Defined.

(** C5.  While the window has room, pushed samples are appended to it and
    none is answered as a jump; in particular none of the first [NTap]
    samples given to a new detector is. *)
Theorem not_full_accumulates (dj : DtJumpFinder) (xs : list Q) :
  (length (window dj) + length xs <= NTap dj)%nat ->
  classify dj xs = repeat false (length xs) /\
  window (feed dj xs) = window dj ++ xs.
Proof. apply feed_accumulate. Qed.

Lemma not_full_accumulates_witness :
  classify App.reg_count_dj [1; 50; 2; 70; 3] = repeat false 5 /\
  window (feed App.reg_count_dj [1; 50; 2; 70; 3]) = [1; 50; 2; 70; 3].
Proof.
  assert (Hroom : (length (window App.reg_count_dj)
                   + length [1; 50; 2; 70; 3] <= NTap App.reg_count_dj)%nat)
    by (cbn; lia).
  exact (not_full_accumulates App.reg_count_dj [1; 50; 2; 70; 3] Hroom).
Defined.

(** C6.  A flat sequence of [ntap + k] equal values never makes a
    detector of capacity [ntap >= 1] report a jump, whatever its
    settings. *)
Theorem flat_never_jumps (ntap : nat) (c t v : Q) (k : nat) :
  (1 <= ntap)%nat ->
  classify (new ntap c t) (repeat v (ntap + k)) = repeat false (ntap + k) /\
  detect (new ntap c t) (repeat v (ntap + k)) = None.
Proof.
  intros Hn.
  destruct (feed_flat (new ntap c t) v 0 (ntap + k)) as [Hc _];
    cbn; auto; try lia.
  split; auto. unfold detect. rewrite Hc. apply first_true_all_false.
Qed.

Lemma flat_never_jumps_witness :
  classify App.cacheline_dj (repeat (7 # 2) (5 + 3)) = repeat false (5 + 3) /\
  detect App.cacheline_dj (repeat (7 # 2) (5 + 3)) = None.
Proof.
  apply (flat_never_jumps 5 App.BufCacheline.COMPENSATE
           App.BufCacheline.THRESHOLD (7 # 2) 3).
  lia.
Defined.

(** The answer to the first sample after a flat stretch that filled the
    window. *)
Lemma after_flat (ntap : nat) (c t v : Q) (k : nat) (x : Q) :
  (1 <= ntap)%nat ->
  let dj := feed (new ntap c t) (repeat v (ntap + k)) in
  fst (push dj x) = true <-> Qmax 0 c < Qabs (x - v).
Proof.
  intros Hn dj.
  destruct (feed_settings (new ntap c t) (repeat v (ntap + k)))
    as (HN & Hc & _).
  destruct (feed_flat (new ntap c t) v 0 (ntap + k)) as [_ Hw];
    cbn; auto; try lia.
  fold dj in HN, Hc, Hw. cbn in HN, Hc, Hw.
  replace (Nat.min (ntap + k) ntap) with ntap in Hw by lia.
  assert (Hfull : (NTap dj <= length (window dj))%nat)
    by (rewrite Hw, repeat_length; lia).
  rewrite <- Hc, <- (is_jump_flat dj v ntap x Hn Hw).
  split; intros Hj.
  - destruct (is_jump dj x) eqn:Ht; auto.
    apply is_jump_false in Ht.
    rewrite (push_accept dj x Hfull Ht) in Hj. discriminate.
  - apply is_jump_true in Hj. now rewrite (push_jump dj x Hfull Hj).
Qed.

Lemma tenfold_distance (v : Q) : Qabs (v * 10 - v) == 9 * Qabs v.
Proof.
  setoid_replace (v * 10 - v) with (9 * v) by ring.
  rewrite Qabs_Qmult. reflexivity.
Qed.

(** C7, as the detector has it.  A sequence that stays at [v] until the
    window is full (and possibly [k] samples longer) and then goes to
    [v * 10] is reported as a jump at the index of that first outlier, and
    at no earlier index, provided the outlier clears the compensation
    floor: [9 * |v|] must exceed [max 0 c]. *)
Theorem tenfold_jump_detected (ntap : nat) (c t v : Q) (k : nat)
    (rest : list Q) :
  (1 <= ntap)%nat ->
  Qmax 0 c < 9 * Qabs v ->
  detect (new ntap c t) (repeat v (ntap + k) ++ v * 10 :: rest)
  = Some (ntap + k)%nat.
Proof.
  intros Hn Hbig.
  unfold detect. rewrite classify_app.
  destruct (feed_flat (new ntap c t) v 0 (ntap + k) Hn eq_refl
              (Nat.le_0_l _)) as [-> _].
  cbn [classify dj_push DtJumpFinder_JumpFinder].
  rewrite <- tenfold_distance in Hbig.
  apply (after_flat ntap c t v k (v * 10) Hn) in Hbig.
  rewrite Hbig. apply first_true_found.
Qed.

Lemma tenfold_jump_detected_witness :
  detect App.reg_count_dj (repeat 2 (5 + 1) ++ [2 * 10; 2; 2])
  = Some (5 + 1)%nat.
Proof.
  apply (tenfold_jump_detected 5 App.RegCount.COMPENSATE
           App.RegCount.THRESHOLD 2 1 [2; 2]).
  - lia.
  - reflexivity.
Defined.

(** C7 as stated fails below the floor: five samples at 1/1000 and then
    1/100, ten times as much, are 9/1000 apart, which is under the floor
    of 1/100, so no jump is reported. *)
Lemma tenfold_jump_missed :
  detect App.reg_count_dj (repeat (1 # 1000) 5 ++ [(1 # 1000) * 10]) = None.
Proof. reflexivity. Qed.

(** Below the floor the same outlier is accepted like any other sample. *)
Lemma tenfold_below_floor (ntap : nat) (c t v : Q) (k : nat) :
  (1 <= ntap)%nat ->
  9 * Qabs v <= Qmax 0 c ->
  detect (new ntap c t) (repeat v (ntap + k) ++ [v * 10]) = None.
Proof.
  intros Hn Hsmall.
  unfold detect. rewrite classify_app.
  destruct (feed_flat (new ntap c t) v 0 (ntap + k) Hn eq_refl
              (Nat.le_0_l _)) as [-> _].
  cbn [classify dj_push DtJumpFinder_JumpFinder].
  destruct (fst (push (feed (new ntap c t) (repeat v (ntap + k))) (v * 10)))
    eqn:Hp.
  - apply (after_flat ntap c t v k (v * 10) Hn) in Hp.
    rewrite tenfold_distance in Hp.
    exfalso. eapply Qlt_not_le; eassumption.
  - rewrite (repeat_snoc false). apply first_true_all_false.
Qed.

(** A new detector answers no jump before its window is full: in a sweep
    the first jump comes at index [ntap] at the earliest. *)
Lemma first_jump_after_fill (ntap : nat) (c t : Q) (w : World) (k : nat) :
  first_jump_at (new ntap c t) w k -> (ntap <= k)%nat.
Proof.
  unfold first_jump_at, detect. intros Hj.
  destruct (Nat.le_gt_cases ntap k) as [Hle | Hlt]; auto.
  destruct (feed_accumulate (new ntap c t) (samples w (S k))) as [Hc _].
  - unfold samples. rewrite length_map, length_seq.
    cbn [window new length NTap]. lia.
  - rewrite Hc, first_true_all_false in Hj. discriminate.
Qed.



End StatsFacts.

(** ** The sweeps of [app.cpp] *)

Lemma samples_S (w w' : World) (n : nat) :
  gpu w' = gpu w -> tick w' = S (tick w) ->
  samples w (S n) = gpu w (tick w) :: samples w' n.
Proof.
  intros Hg Ht. unfold samples.
  rewrite <- cons_seq, <- seq_shift, map_cons, map_map, Nat.add_0_r, Hg, Ht.
  f_equal. apply map_ext. intros j. f_equal. lia.
Qed.

Lemma u32_small (z : Z) : 0 <= z < 2 ^ 32 -> u32 z = z.
Proof. intros Hz. unfold u32. now apply Z.mod_small. Qed.

Lemma u32_range (z : Z) : 0 <= u32 z < 2 ^ 32.
Proof. unfold u32. apply Z.mod_pos_bound. lia. Qed.

Module AppFacts.
Import App.
Local Open Scope string_scope.
Local Open Scope list_scope.
Local Open Scope Z_scope.

Section WithDetector.
Context {D : Type} `{JumpFinder D}.
Variable ensure_min_niter : Z -> (Z -> M Q) -> M Z.

Lemma benchmark_on_gpu_eq sh g l cs w :
  benchmark_on_gpu sh g l cs w
  = Some (gpu w (tick w), advance w 1 [Bench sh g l cs]).
Proof.
  unfold benchmark_on_gpu, advance. do 3 f_equal. lia.
Qed.

Lemma cout_eq line w : cout line w = Some (tt, advance w 0 [Cout line]).
Proof.
  unfold cout, emit, advance. do 3 f_equal. lia.
Qed.

Lemma advance_advance w n evs m evs' :
  advance (advance w n evs) m evs' = advance w (n + m) (evs ++ evs').
Proof.
  unfold advance. cbn. f_equal; [lia | now rewrite app_assoc].
Qed.

Lemma advance_0_nil w : advance w 0 [] = w.
Proof.
  destruct w. unfold advance. cbn. f_equal; [lia | apply app_nil_r].
Qed.

(** One turn of the loop body. *)
Lemma sweep_step fuel hi step bench ev line i dj w :
  bench_like bench ev ->
  i <= hi ->
  sweep (S fuel) hi step bench line i dj w =
  let x := gpu w (tick w) in
  let w' := advance w 1 [ev i; Cout (line i x)] in
  if fst (dj_push dj x) then Some ((i, true, snd (dj_push dj x)), w')
  else sweep fuel hi step bench line (u32 (i + step)) (snd (dj_push dj x)) w'.
Proof.
  intros Hb Hi. cbn [sweep].
  apply Z.leb_le in Hi. rewrite Hi.
  unfold bind. rewrite Hb, cout_eq, advance_advance. cbn [app Nat.add].
  destruct (dj_push dj (gpu w (tick w))) as [[|] dj']; reflexivity.
Qed.

Lemma sweep_done fuel hi step bench line i dj w :
  hi < i ->
  sweep (S fuel) hi step bench line i dj w = Some ((i, false, dj), w).
Proof.
  intros Hi. cbn [sweep].
  apply Z.leb_gt in Hi. now rewrite Hi.
Qed.

Lemma detect_cons (dj : D) x xs :
  detect dj (x :: xs) =
  if fst (dj_push dj x) then Some O
  else option_map S (detect (snd (dj_push dj x)) xs).
Proof. unfold detect. cbn. now destruct (fst (dj_push dj x)). Qed.

(** The loop leaves at the first jump. *)
Lemma sweep_jump bench ev line hi :
  bench_like bench ev ->
  hi < 2 ^ 32 ->
  forall k fuel i dj w,
    0 <= i -> i + Z.of_nat k <= hi -> (k < fuel)%nat ->
    first_jump_at dj w k ->
    sweep fuel hi 1 bench line i dj w =
    Some ((i + Z.of_nat k, true, feed dj (samples w (S k))),
          advance w (S k) (sweep_trace ev line i (samples w (S k)))).
Proof.
  intros Hb Hhi. unfold first_jump_at.
  induction k as [|k IH]; intros fuel i dj w Hi Hik Hfuel Hj;
    (destruct fuel as [|fuel]; [lia|]);
    rewrite (sweep_step _ _ _ _ ev _ _ _ _ Hb) by lia;
    set (x := gpu w (tick w)) in *;
    set (w' := advance w 1 [ev i; Cout (line i x)]);
    rewrite (samples_S w w' _ eq_refl) in * by (cbn; lia);
    fold x in Hj |- *; rewrite detect_cons in Hj; cbn zeta;
    destruct (fst (dj_push dj x)) eqn:Hp.
  - cbn. now rewrite Z.add_0_r.
  - cbn in Hj. discriminate.
  - discriminate.
  - rewrite u32_small by lia.
    rewrite (IH fuel (i + 1) (snd (dj_push dj x)) w') by
      (try lia; destruct (detect _ _); cbn in Hj; congruence).
    unfold w'. rewrite advance_advance.
    cbn [feed sweep_trace app Nat.add].
    do 4 f_equal. lia.
Qed.

(** Without a jump the loop runs through all the candidates. *)
Lemma sweep_exhaust bench ev line hi :
  bench_like bench ev ->
  hi + 1 < 2 ^ 32 ->
  forall n fuel i dj w,
    0 <= i -> i + Z.of_nat n = hi + 1 -> (n < fuel)%nat ->
    no_jump_in dj w n ->
    sweep fuel hi 1 bench line i dj w =
    Some ((hi + 1, false, feed dj (samples w n)),
          advance w n (sweep_trace ev line i (samples w n))).
Proof.
  intros Hb Hhi. unfold no_jump_in.
  induction n as [|n IH]; intros fuel i dj w Hi Hin Hfuel Hj;
    (destruct fuel as [|fuel]; [lia|]).
  - rewrite sweep_done by lia. cbn. rewrite advance_0_nil.
    replace (hi + 1) with i by lia. reflexivity.
  - rewrite (sweep_step _ _ _ _ ev _ _ _ _ Hb) by lia.
    set (x := gpu w (tick w)) in *.
    set (w' := advance w 1 [ev i; Cout (line i x)]).
    rewrite (samples_S w w' _ eq_refl) in * by (cbn; lia).
    fold x in Hj |- *. rewrite detect_cons in Hj. cbn zeta.
    destruct (fst (dj_push dj x)) eqn:Hp; [discriminate|].
    rewrite u32_small by lia.
    rewrite (IH fuel (i + 1) (snd (dj_push dj x)) w') by
      (try lia; destruct (detect _ _); cbn in Hj; congruence).
    unfold w'. rewrite advance_advance.
    cbn [feed sweep_trace app Nat.add]. reflexivity.
Qed.

(** With fuel for every candidate the loop ends, by a jump at one of the
    candidates or past the last one. *)
Lemma sweep_total bench ev line hi :
  bench_like bench ev ->
  hi + 1 < 2 ^ 32 ->
  forall fuel i dj w,
    0 <= i <= hi + 1 -> (Z.to_nat (hi + 1 - i) < fuel)%nat ->
    exists i' jump dj' w',
      sweep fuel hi 1 bench line i dj w = Some ((i', jump, dj'), w') /\
      if jump : bool then i <= i' <= hi else i' = hi + 1.
Proof.
  intros Hb Hhi.
  induction fuel as [|fuel IH]; intros i dj w Hi Hfuel; [lia|].
  destruct (Z_le_gt_dec i hi) as [Hle | Hgt].
  - rewrite (sweep_step _ _ _ _ ev _ _ _ _ Hb) by lia. cbn zeta.
    destruct (fst (dj_push dj (gpu w (tick w)))).
    + do 4 eexists. split; [reflexivity|]. cbn. lia.
    + rewrite u32_small by lia.
      edestruct (IH (i + 1)) as (i' & jump & dj' & w' & -> & Hr);
        [lia | lia |].
      do 4 eexists. split; [reflexivity|].
      destruct jump; lia.
  - rewrite sweep_done by lia.
    do 4 eexists. split; [reflexivity|]. cbn. lia.
Qed.

Lemma bind_cout {A} line (k : unit -> M A) w :
  bind (cout line) k w = k tt (advance w 0 [Cout line]).
Proof. unfold bind. now rewrite cout_eq. Qed.

Lemma bind_Some {A B} (m : M A) (k : A -> M B) w a w' :
  m w = Some (a, w') -> bind m k w = k a w'.
Proof. intros Hm. unfold bind. now rewrite Hm. Qed.

(** *** The three sweeps *)

Lemma nreg_bench_like NITER :
  bench_like (fun nreg => reg_bench NITER 1 nreg) (reg_bench_event NITER 1).
Proof. intros i w. apply benchmark_on_gpu_eq. Qed.

Lemma ngrp_bench_like NITER nreg :
  bench_like (fun ngrp => reg_bench NITER ngrp nreg)
             (fun ngrp => reg_bench_event NITER ngrp nreg).
Proof. intros i w. apply benchmark_on_gpu_eq. Qed.

Lemma cacheline_bench_like app NITER :
  bench_like (fun stride => cacheline_bench app NITER stride)
             (cacheline_bench_event app NITER).
Proof. intros i w. apply benchmark_on_gpu_eq. Qed.

Lemma MAX_STRIDE_range app : 0 <= BufCacheline.MAX_STRIDE app < 2 ^ 32.
Proof. apply u32_range. Qed.

Lemma nreg_sweep_jump fuel NITER w k :
  (k < fuel)%nat -> Z.of_nat k < RegCount.NREG_MAX ->
  first_jump_at reg_count_dj w k ->
  nreg_sweep fuel NITER w =
  Some ((Z.of_nat k, Some (Z.of_nat k)),
        advance w (S k)
          (sweep_trace (reg_bench_event NITER 1) nreg_line
             RegCount.NREG_MIN (samples w (S k)))).
Proof.
  unfold RegCount.NREG_MAX. intros Hfuel Hk Hj.
  unfold nreg_sweep, bind.
  rewrite (sweep_jump _ _ _ RegCount.NREG_MAX (nreg_bench_like NITER)
             eq_refl k)
    by (auto; unfold RegCount.NREG_MIN, RegCount.NREG_MAX; lia).
  unfold RegCount.NREG_MIN, RegCount.NREG_STEP, ret.
  replace (1 + Z.of_nat k - 1) with (Z.of_nat k) by lia.
  rewrite u32_small by lia. reflexivity.
Qed.

Lemma nreg_sweep_exhaust fuel NITER w :
  (512 < fuel)%nat ->
  no_jump_in reg_count_dj w 512 ->
  nreg_sweep fuel NITER w =
  Some ((RegCount.NREG_MAX + 1, None),
        advance w 512
          (sweep_trace (reg_bench_event NITER 1) nreg_line
             RegCount.NREG_MIN (samples w 512))).
Proof.
  intros Hfuel Hj. unfold nreg_sweep, bind.
  rewrite (sweep_exhaust _ _ _ RegCount.NREG_MAX (nreg_bench_like NITER)
             eq_refl 512)
    by (auto; unfold RegCount.NREG_MIN, RegCount.NREG_MAX; lia).
  reflexivity.
Qed.

Lemma find_ngrp_jump fuel NITER nreg w k :
  (k < fuel)%nat -> Z.of_nat k < RegCount.NGRP_MAX ->
  first_jump_at find_ngrp_dj w k ->
  find_ngrp_by_nreg fuel NITER nreg w =
  Some (Z.of_nat k,
        advance w (S k)
          (sweep_trace (fun ngrp => reg_bench_event NITER ngrp nreg)
             (ngrp_line nreg) RegCount.NGRP_MIN (samples w (S k))
           ++ [Cout (ngrp_found nreg (Z.of_nat k))])).
Proof.
  unfold RegCount.NGRP_MAX. intros Hfuel Hk Hj.
  unfold find_ngrp_by_nreg, bind.
  rewrite (sweep_jump _ _ _ RegCount.NGRP_MAX
             (ngrp_bench_like NITER nreg) eq_refl k)
    by (auto; unfold RegCount.NGRP_MIN, RegCount.NGRP_MAX; lia).
  unfold RegCount.NGRP_MIN, RegCount.NGRP_STEP, ret.
  replace (1 + Z.of_nat k - 1) with (Z.of_nat k) by lia.
  rewrite u32_small by lia.
  rewrite cout_eq, advance_advance, Nat.add_0_r. reflexivity.
Qed.

Lemma find_ngrp_exhaust fuel NITER nreg w :
  (64 < fuel)%nat ->
  no_jump_in find_ngrp_dj w 64 ->
  find_ngrp_by_nreg fuel NITER nreg w =
  Some (1,
        advance w 64
          (sweep_trace (fun ngrp => reg_bench_event NITER ngrp nreg)
             (ngrp_line nreg) RegCount.NGRP_MIN (samples w 64)
           ++ [Cout (ngrp_unable nreg)])).
Proof.
  intros Hfuel Hj. unfold find_ngrp_by_nreg, bind.
  rewrite (sweep_exhaust _ _ _ RegCount.NGRP_MAX
             (ngrp_bench_like NITER nreg) eq_refl 64)
    by (auto; unfold RegCount.NGRP_MIN, RegCount.NGRP_MAX; lia).
  rewrite cout_eq, advance_advance, Nat.add_0_r. reflexivity.
Qed.

Lemma stride_sweep_jump app fuel NITER w k :
  (k < fuel)%nat -> Z.of_nat k < BufCacheline.MAX_STRIDE app ->
  first_jump_at cacheline_dj w k ->
  stride_sweep app fuel NITER w =
  Some ((1 + Z.of_nat k, Some (u32 ((1 + Z.of_nat k) * sizeof_float))),
        advance w (S k)
          (sweep_trace (cacheline_bench_event app NITER) stride_line 1
             (samples w (S k)))).
Proof.
  intros Hfuel Hk Hj.
  pose proof (MAX_STRIDE_range app) as Hr.
  unfold stride_sweep, bind.
  rewrite (sweep_jump _ _ _ _ (cacheline_bench_like app NITER)
             (proj2 Hr) k) by (auto; lia).
  reflexivity.
Qed.

Lemma stride_sweep_exhaust app fuel NITER w :
  BufCacheline.MAX_STRIDE app < 2 ^ 32 - 1 ->
  (Z.to_nat (BufCacheline.MAX_STRIDE app) < fuel)%nat ->
  no_jump_in cacheline_dj w (Z.to_nat (BufCacheline.MAX_STRIDE app)) ->
  stride_sweep app fuel NITER w =
  Some ((BufCacheline.MAX_STRIDE app + 1, None),
        advance w (Z.to_nat (BufCacheline.MAX_STRIDE app))
          (sweep_trace (cacheline_bench_event app NITER) stride_line 1
             (samples w (Z.to_nat (BufCacheline.MAX_STRIDE app))))).
Proof.
  intros Hmax Hfuel Hj.
  pose proof (MAX_STRIDE_range app) as Hr.
  unfold stride_sweep, bind.
  rewrite (sweep_exhaust _ _ _ _ (cacheline_bench_like app NITER))
    with (n := Z.to_nat (BufCacheline.MAX_STRIDE app)) by (auto; lia).
  reflexivity.
Qed.

(** With [hi] at [2^32 - 1] the loop variable wraps before it can pass
    [hi]: the loop is left by a jump or not at all. *)
Lemma sweep_wraps bench ev line :
  bench_like bench ev ->
  (forall (dj : D) x, fst (dj_push dj x) = false) ->
  forall fuel i dj w,
    0 <= i < 2 ^ 32 ->
    sweep fuel (2 ^ 32 - 1) 1 bench line i dj w = None.
Proof.
  intros Hb Hnever.
  induction fuel as [|fuel IH]; intros i dj w Hi; [reflexivity|].
  rewrite (sweep_step _ _ _ _ ev _ _ _ _ Hb) by lia. cbn zeta.
  rewrite Hnever. apply IH. apply u32_range.
Qed.

(** *** The tests that follow the sweeps *)

Lemma find_nreg_max_jump fuel NITER w k :
  (k < fuel)%nat -> Z.of_nat k < RegCount.NREG_MAX ->
  first_jump_at reg_count_dj w k ->
  find_nreg_max fuel NITER w =
  Some (Z.of_nat k,
        advance w (S k)
          (sweep_trace (reg_bench_event NITER 1) nreg_line
             RegCount.NREG_MIN (samples w (S k))
           ++ [Cout [Num (Z.of_nat k);
                     Str " registers are available at most"]])).
Proof.
  intros Hfuel Hk Hj. unfold find_nreg_max.
  rewrite (bind_Some _ _ _ _ _ (nreg_sweep_jump fuel NITER w k Hfuel Hk Hj)).
  apply Z.leb_gt in Hk. rewrite Hk.
  cbn [get_local]. unfold bind, ret.
  rewrite cout_eq, advance_advance, Nat.add_0_r. reflexivity.
Qed.

Lemma find_nreg_max_exhaust fuel NITER w :
  (512 < fuel)%nat ->
  no_jump_in reg_count_dj w 512 ->
  find_nreg_max fuel NITER w =
  Some (RegCount.NREG_STEP,
        advance w 512
          (sweep_trace (reg_bench_event NITER 1) nreg_line
             RegCount.NREG_MIN (samples w 512)
           ++ [Cout nreg_unable])).
Proof.
  intros Hfuel Hj. unfold find_nreg_max.
  rewrite (bind_Some _ _ _ _ _ (nreg_sweep_exhaust fuel NITER w Hfuel Hj)).
  cbn [Z.leb Z.add Z.compare Pos.compare Pos.compare_cont Pos.add
       RegCount.NREG_MAX].
  rewrite bind_cout, advance_advance, Nat.add_0_r. reflexivity.
Qed.

Lemma find_nreg_max_total fuel NITER w :
  (512 < fuel)%nat ->
  exists n w', find_nreg_max fuel NITER w = Some (n, w').
Proof.
  intros Hfuel. unfold find_nreg_max, nreg_sweep.
  destruct (sweep_total _ _ nreg_line RegCount.NREG_MAX
              (nreg_bench_like NITER) eq_refl fuel RegCount.NREG_MIN
              reg_count_dj w)
    as (i' & jump & dj' & w' & Heq & Hr).
  { unfold RegCount.NREG_MIN, RegCount.NREG_MAX. lia. }
  { unfold RegCount.NREG_MIN, RegCount.NREG_MAX. lia. }
  unfold bind, RegCount.NREG_STEP. rewrite Heq.
  unfold RegCount.NREG_MIN, RegCount.NREG_MAX in *.
  destruct jump; unfold ret.
  - rewrite u32_small by lia.
    assert (Hlt : (512 <=? i' - 1) = false) by (apply Z.leb_gt; lia).
    rewrite Hlt. cbn [get_local]. unfold ret. rewrite cout_eq.
    eauto.
  - subst i'. cbn [Z.leb Z.add Z.compare Pos.compare Pos.compare_cont
                   Pos.add].
    rewrite cout_eq. eauto.
Qed.

Lemma find_ngrp_total fuel NITER nreg w :
  (64 < fuel)%nat ->
  exists n w', find_ngrp_by_nreg fuel NITER nreg w = Some (n, w').
Proof.
  intros Hfuel. unfold find_ngrp_by_nreg.
  destruct (sweep_total _ _ (ngrp_line nreg) RegCount.NGRP_MAX
              (ngrp_bench_like NITER nreg) eq_refl fuel RegCount.NGRP_MIN
              find_ngrp_dj w)
    as (i' & jump & dj' & w' & Heq & Hr).
  { unfold RegCount.NGRP_MIN, RegCount.NGRP_MAX. lia. }
  { unfold RegCount.NGRP_MIN, RegCount.NGRP_MAX. lia. }
  unfold bind, RegCount.NGRP_STEP. rewrite Heq.
  destruct jump; rewrite cout_eq; unfold ret; eauto.
Qed.

Lemma find_cacheline_size_last app fuel NITER w k :
  (k < fuel)%nat -> 1 + Z.of_nat k = BufCacheline.MAX_STRIDE app ->
  first_jump_at cacheline_dj w k ->
  find_cacheline_size app fuel NITER w =
  Some (BufCacheline.MAX_STRIDE app,
        advance w (S k)
          (sweep_trace (cacheline_bench_event app NITER) stride_line 1
             (samples w (S k))
           ++ [Cout cacheline_unable])).
Proof.
  intros Hfuel Hk Hj. unfold find_cacheline_size.
  rewrite (bind_Some _ _ _ _ _ (stride_sweep_jump app fuel NITER w k
                                  Hfuel ltac:(lia) Hj)).
  rewrite Hk, Z.leb_refl.
  unfold bind at 1. rewrite bind_cout. unfold ret. cbn [get_local].
  unfold ret. rewrite advance_advance, Nat.add_0_r. reflexivity.
Qed.

Lemma find_cacheline_size_exhaust app fuel NITER w :
  BufCacheline.MAX_STRIDE app < 2 ^ 32 - 1 ->
  (Z.to_nat (BufCacheline.MAX_STRIDE app) < fuel)%nat ->
  no_jump_in cacheline_dj w (Z.to_nat (BufCacheline.MAX_STRIDE app)) ->
  find_cacheline_size app fuel NITER w =
  Some (BufCacheline.MAX_STRIDE app,
        advance w (Z.to_nat (BufCacheline.MAX_STRIDE app))
          (sweep_trace (cacheline_bench_event app NITER) stride_line 1
             (samples w (Z.to_nat (BufCacheline.MAX_STRIDE app)))
           ++ [Cout cacheline_unable])).
Proof.
  intros Hmax Hfuel Hj. unfold find_cacheline_size.
  rewrite (bind_Some _ _ _ _ _ (stride_sweep_exhaust app fuel NITER w
                                  Hmax Hfuel Hj)).
  assert (Hle : (BufCacheline.MAX_STRIDE app
                 <=? BufCacheline.MAX_STRIDE app + 1) = true)
    by (apply Z.leb_le; lia).
  rewrite Hle.
  unfold bind at 1. rewrite bind_cout. unfold ret. cbn [get_local].
  unfold ret. rewrite advance_advance, Nat.add_0_r. reflexivity.
Qed.

(** *** The claims about the sweeps *)

(** C3.  In each of the three sweeps, when the first jump among the
    measurements to come is the one of index [k] (the candidate
    [1 + k]), the loop is left there: exactly [k + 1] measurements are
    taken, the trace grows by the benchmarks and lines of the candidates
    [1 .. 1 + k] and nothing else from the loop, and the detection is
    recorded: [nreg_max] is set (to the candidate before the jump),
    [find_ngrp_by_nreg] prints and returns its count, [cacheline_size]
    is set from the stride. *)
Theorem sweeps_stop_at_first_jump (fuel : nat) (NITER : Z) (w : World)
    (k : nat) :
  (k < fuel)%nat ->
  (Z.of_nat k < RegCount.NREG_MAX ->
   first_jump_at reg_count_dj w k ->
   nreg_sweep fuel NITER w =
   Some ((Z.of_nat k, Some (Z.of_nat k)),
         advance w (S k)
           (sweep_trace (reg_bench_event NITER 1) nreg_line
              RegCount.NREG_MIN (samples w (S k))))) /\
  (forall nreg,
      Z.of_nat k < RegCount.NGRP_MAX ->
      first_jump_at find_ngrp_dj w k ->
      find_ngrp_by_nreg fuel NITER nreg w =
      Some (Z.of_nat k,
            advance w (S k)
              (sweep_trace (fun ngrp => reg_bench_event NITER ngrp nreg)
                 (ngrp_line nreg) RegCount.NGRP_MIN (samples w (S k))
               ++ [Cout (ngrp_found nreg (Z.of_nat k))]))) /\
  (forall app,
      Z.of_nat k < BufCacheline.MAX_STRIDE app ->
      first_jump_at cacheline_dj w k ->
      stride_sweep app fuel NITER w =
      Some ((1 + Z.of_nat k, Some (u32 ((1 + Z.of_nat k) * sizeof_float))),
            advance w (S k)
              (sweep_trace (cacheline_bench_event app NITER) stride_line 1
                 (samples w (S k))))).
Proof.
  intros Hfuel. split; [|split].
  - now apply nreg_sweep_jump.
  - intros nreg. now apply find_ngrp_jump.
  - intros app. now apply stride_sweep_jump.
Qed.

(** C2, as the code has it.  A sweep that runs through all its
    candidates without a jump makes the caller print that it is unable
    to conclude and fall back to a default: [NREG_STEP], which is 1,
    after the sweep over [nreg]; 1 in [find_ngrp_by_nreg]; [MAX_STRIDE]
    after the sweep over [stride], whose candidates are exhausted only
    when [MAX_STRIDE] is below [2^32 - 1]. *)
Theorem exhausted_sweep_fallbacks (fuel : nat) (NITER : Z) (w : World) :
  ((512 < fuel)%nat ->
   no_jump_in reg_count_dj w 512 ->
   find_nreg_max fuel NITER w =
   Some (RegCount.NREG_STEP,
         advance w 512
           (sweep_trace (reg_bench_event NITER 1) nreg_line
              RegCount.NREG_MIN (samples w 512)
            ++ [Cout nreg_unable]))) /\
  (forall nreg,
      (64 < fuel)%nat ->
      no_jump_in find_ngrp_dj w 64 ->
      find_ngrp_by_nreg fuel NITER nreg w =
      Some (1,
            advance w 64
              (sweep_trace (fun ngrp => reg_bench_event NITER ngrp nreg)
                 (ngrp_line nreg) RegCount.NGRP_MIN (samples w 64)
               ++ [Cout (ngrp_unable nreg)]))) /\
  (forall app,
      BufCacheline.MAX_STRIDE app < 2 ^ 32 - 1 ->
      (Z.to_nat (BufCacheline.MAX_STRIDE app) < fuel)%nat ->
      no_jump_in cacheline_dj w (Z.to_nat (BufCacheline.MAX_STRIDE app)) ->
      find_cacheline_size app fuel NITER w =
      Some (BufCacheline.MAX_STRIDE app,
            advance w (Z.to_nat (BufCacheline.MAX_STRIDE app))
              (sweep_trace (cacheline_bench_event app NITER) stride_line 1
                 (samples w (Z.to_nat (BufCacheline.MAX_STRIDE app)))
               ++ [Cout cacheline_unable]))).
Proof.
  split; [|split].
  - now apply find_nreg_max_exhaust.
  - intros nreg. now apply find_ngrp_exhaust.
  - intros app. now apply find_cacheline_size_exhaust.
Qed.

Lemma times_four_moves (m : Z) :
  1 <= m < 2 ^ 32 -> u32 (m * sizeof_float) <> m.
Proof.
  unfold u32, sizeof_float. intros Hm Heq.
  pose proof (Z.div_mod (m * 4) (2 ^ 32) ltac:(lia)) as Hdm.
  rewrite Heq in Hdm.
  assert (Hq : 1 <= m * 4 / 2 ^ 32 < 3).
  { split.
    - apply Z.div_le_lower_bound; lia.
    - apply Z.div_lt_upper_bound; lia. }
  lia.
Qed.

(** C9.  When the detector reports its jump at [stride == MAX_STRIDE],
    the sweep sets [cacheline_size] to [stride * sizeof(float)], a
    different number, but the test [stride >= MAX_STRIDE] that follows
    the loop holds as it does after an exhausted sweep: the program
    prints that it is unable to conclude and reports [MAX_STRIDE]. *)
Theorem jump_at_max_stride_overwritten (app : App) (fuel : nat)
    (w0 : World) (niter : Z) (w : World) (k : nat) :
  nthread_logic_ app <> 0 ->
  ensure_min_niter 1000 (fun NITER => cacheline_bench app NITER 1)
    (advance w0 0
       [Cout []; Cout [Str "------ Buffer Cacheline Size ------"]])
  = Some (niter, w) ->
  (k < fuel)%nat ->
  1 + Z.of_nat k = BufCacheline.MAX_STRIDE app ->
  first_jump_at cacheline_dj w k ->
  let w1 := advance w (S k)
              (sweep_trace (cacheline_bench_event app niter) stride_line 1
                 (samples w (S k))) in
  stride_sweep app fuel niter w
  = Some ((BufCacheline.MAX_STRIDE app,
           Some (u32 (BufCacheline.MAX_STRIDE app * sizeof_float))), w1) /\
  u32 (BufCacheline.MAX_STRIDE app * sizeof_float)
  <> BufCacheline.MAX_STRIDE app /\
  buf_cacheline_size ensure_min_niter app fuel w0
  = Some (BufCacheline.MAX_STRIDE app,
          advance w1 0
            [Cout cacheline_unable;
             Cout (cacheline_report (BufCacheline.MAX_STRIDE app))]).
Proof.
  intros Hnt Hniter Hfuel Hk Hj w1.
  pose proof (MAX_STRIDE_range app) as Hr.
  split; [|split].
  - rewrite (stride_sweep_jump app fuel niter w k Hfuel ltac:(lia) Hj).
    now rewrite Hk.
  - apply times_four_moves. lia.
  - unfold buf_cacheline_size.
    rewrite !bind_cout, !advance_advance. cbn [Nat.add List.app].
    apply Z.eqb_neq in Hnt. rewrite Hnt.
    rewrite (bind_Some _ _ _ _ _ Hniter).
    rewrite (bind_Some _ _ _ _ _
               (find_cacheline_size_last app fuel niter w k Hfuel Hk Hj)).
    rewrite bind_cout, advance_advance. unfold ret, w1.
    rewrite advance_advance, <- app_assoc. reflexivity.
Qed.

(** C10.  With fuel for its sweeps, [reg_count] ends, and the register
    type it reports in its last line is "Pooled" exactly when
    [ngrp_full * 1.5 < ngrp_half], and "Dedicated" exactly when not,
    where [ngrp_full] and [ngrp_half] are what [find_ngrp_by_nreg]
    returned for [nreg_max] and for [nreg_max / 2]. *)
Theorem reg_ty_pooled_iff (fuel : nat) (w0 : World) (niter : Z)
    (w1 : World) :
  (512 < fuel)%nat ->
  ensure_min_niter 1000 (fun NITER => reg_bench NITER 1 RegCount.NREG_MIN)
    (advance w0 0
       [Cout []; Cout [Str "------ Register Count ------"];
        Cout [Str "Calculating NITER..."]])
  = Some (niter, w1) ->
  exists r w2 w3 w4 w',
    reg_count ensure_min_niter fuel w0 = Some (r, w') /\
    find_nreg_max fuel niter (advance w1 0 [Cout [Str "NITER,"; Num niter]])
    = Some (nreg_max r, w2) /\
    find_ngrp_by_nreg fuel niter (nreg_max r) w2
    = Some (ngrp_full r, w3) /\
    find_ngrp_by_nreg fuel niter (nreg_max r / 2) w3
    = Some (ngrp_half r, w4) /\
    (reg_ty r = "Pooled" <->
     (inject_Z (ngrp_full r) * (15 # 10) < inject_Z (ngrp_half r))%Q) /\
    (reg_ty r = "Dedicated" <->
     ~ (inject_Z (ngrp_full r) * (15 # 10) < inject_Z (ngrp_half r))%Q) /\
    exists evs,
      trace w' = evs ++ [Cout [Str "Register type,"; Str (reg_ty r)]].
Proof.
  intros Hfuel Hniter.
  destruct (find_nreg_max_total fuel niter
              (advance w1 0 [Cout [Str "NITER,"; Num niter]]))
    as (nmax & w2 & H2); [lia|].
  destruct (find_ngrp_total fuel niter nmax w2) as (full & w3 & H3); [lia|].
  destruct (find_ngrp_total fuel niter (nmax / 2) w3)
    as (half & w4 & H4); [lia|].
  unfold reg_count.
  rewrite !bind_cout, !advance_advance. cbn [Nat.add List.app].
  rewrite (bind_Some _ _ _ _ _ Hniter), bind_cout.
  rewrite (bind_Some _ _ _ _ _ H2), (bind_Some _ _ _ _ _ H3),
    (bind_Some _ _ _ _ _ H4).
  unfold classify_reg_ty.
  destruct (Qltb (inject_Z full * (15 # 10)) (inject_Z half)) eqn:Hlt;
    unfold bind at 1; rewrite bind_cout; unfold ret;
    rewrite !bind_cout, !advance_advance; cbn [Nat.add List.app];
    (eexists; exists w2, w3, w4; eexists;
     split; [reflexivity|]; cbn [nreg_max ngrp_full ngrp_half reg_ty];
     repeat (split; [assumption|])).
  - apply Qltb_lt in Hlt.
    split; [tauto|]. split; [split; [discriminate | tauto]|].
    cbn [trace advance].
    eexists (trace w4 ++ [_; _; _; _; _; _; _]).
    rewrite <- app_assoc. reflexivity.
  - assert (Hn : ~ (inject_Z full * (15 # 10) < inject_Z half)%Q).
    { intros Hc. apply Qltb_lt in Hc. congruence. }
    split; [split; [discriminate | tauto]|]. split; [tauto|].
    cbn [trace advance].
    eexists (trace w4 ++ [_; _; _; _; _; _; _]).
    rewrite <- app_assoc. reflexivity.
Qed.

End WithDetector.

(** *** The claims on concrete devices, with the detector of [stats.h] *)

Import Examples.

Lemma sweeps_stop_at_first_jump_witness :
  let w := knee_world 1 100 5 in
  option_map (fun r => (fst r, tick (snd r))) (nreg_sweep 8 1000 w)
  = Some ((5, Some 5), 6%nat) /\
  option_map (fun r => (fst r, tick (snd r))) (find_ngrp_by_nreg 8 1000 7 w)
  = Some (5, 6%nat) /\
  option_map (fun r => (fst r, tick (snd r)))
    (stride_sweep small_cache 8 1000 w)
  = Some ((6, Some 24), 6%nat).
Proof.
  intros w.
  destruct (sweeps_stop_at_first_jump (D := Stats.DtJumpFinder) 8 1000 w 5)
    as (Hnreg & Hngrp & Hstride); [lia|].
  rewrite Hnreg, (Hngrp 7), (Hstride small_cache);
    try reflexivity.
  repeat split.
Defined.

Lemma exhausted_sweep_fallbacks_witness :
  let w := flat_world 1 in
  option_map fst (find_nreg_max 513 1000 w) = Some 1 /\
  option_map fst (find_ngrp_by_nreg 513 1000 7 w) = Some 1 /\
  option_map fst (find_cacheline_size small_cache 513 1000 w) = Some 6.
Proof.
  intros w.
  destruct (exhausted_sweep_fallbacks (D := Stats.DtJumpFinder) 513 1000 w)
    as (Hnreg & Hngrp & Hstride).
  rewrite Hnreg, (Hngrp 7), (Hstride small_cache);
    first [vm_compute; reflexivity | vm_compute; lia | idtac].
  repeat split.
Defined.

(** C2 as stated fails for the register count test: on a device whose
    measurements are all equal no jump is found among the 512 candidates,
    and the test reports 1 register, which is [NREG_STEP], not the maximum
    bound 512. *)
Lemma nreg_fallback_is_not_max :
  no_jump_in (D := Stats.DtJumpFinder) reg_count_dj (flat_world 1) 512 /\
  option_map fst (find_nreg_max 513 1000 (flat_world 1)) = Some 1 /\
  option_map (fun r => nreg_max (fst r)) (reg_count one_trial 513 (flat_world 1))
  = Some 1 /\
  1 <> RegCount.NREG_MAX.
Proof.
  repeat split; try (vm_compute; reflexivity). discriminate.
Qed.

Lemma jump_at_max_stride_overwritten_witness :
  let w0 := knee_world 1 100 6 in
  BufCacheline.MAX_STRIDE small_cache = 6 /\
  option_map fst (buf_cacheline_size one_trial small_cache 8 w0) = Some 6.
Proof.
  intros w0. split; [reflexivity|].
  destruct (jump_at_max_stride_overwritten (D := Stats.DtJumpFinder)
              one_trial small_cache 8 w0 1000
              (advance w0 1
                 [Cout [];
                  Cout [Str "------ Buffer Cacheline Size ------"];
                  cacheline_bench_event small_cache 1000 1])
              5)
    as (_ & _ & Hrun).
  - cbn. lia.
  - reflexivity.
  - lia.
  - reflexivity.
  - reflexivity.
  - rewrite Hrun. reflexivity.
Defined.

Lemma reg_ty_pooled_iff_witness :
  exists r w',
    reg_count one_trial 513 (flat_world 1) = Some (r, w') /\
    (reg_ty r = "Pooled" <->
     (inject_Z (ngrp_full r) * (15 # 10) < inject_Z (ngrp_half r))%Q) /\
    (reg_ty r = "Dedicated" <->
     ~ (inject_Z (ngrp_full r) * (15 # 10) < inject_Z (ngrp_half r))%Q).
Proof.
  edestruct (reg_ty_pooled_iff (D := Stats.DtJumpFinder) one_trial 513
               (flat_world 1) 1000)
    as (r & w2 & w3 & w4 & w' & Hrun & _ & _ & _ & Hp & Hd & _).
  - lia.
  - reflexivity.
  - exists r, w'. auto.
Defined.

(** Both outcomes of the comparison: 4 * 1.5 is below 8 and is not below
    6. *)
Example classify_reg_ty_pooled :
  option_map fst (classify_reg_ty 10 4 8 (flat_world 1)) = Some "Pooled".
Proof. reflexivity. Qed.

Example classify_reg_ty_dedicated :
  option_map fst (classify_reg_ty 10 4 6 (flat_world 1)) = Some "Dedicated".
Proof. reflexivity. Qed.

End AppFacts.

(* ================================================================== *)
(** * More of [app.cpp] *)

(** ** Whole runs of the two sweeping tests *)

Module RunFacts.
Import App AppFacts.
Local Open Scope string_scope.
Local Open Scope list_scope.
Local Open Scope Z_scope.

Lemma samples_eq (w w' : World) (n : nat) :
  gpu w' = gpu w -> tick w' = tick w -> samples w' n = samples w n.
Proof. intros Hg Ht. unfold samples. now rewrite Hg, Ht. Qed.

Lemma samples_advance_0 (w : World) evs n :
  samples (advance w 0 evs) n = samples w n.
Proof. apply samples_eq; cbn; auto. Qed.

Section WithDetector.
Context {D : Type} `{JumpFinder D}.
Variable ensure_min_niter : Z -> (Z -> M Q) -> M Z.

(** With fuel for every candidate the loop ends; the device is left as it
    was and one measurement is taken for each candidate tried. *)
Lemma sweep_ends bench ev line hi :
  bench_like bench ev ->
  hi + 1 < 2 ^ 32 ->
  forall fuel i (dj : D) w,
    0 <= i <= hi + 1 -> (Z.to_nat (hi + 1 - i) < fuel)%nat ->
    exists i' jump dj' w',
      sweep fuel hi 1 bench line i dj w = Some ((i', jump, dj'), w') /\
      (if jump : bool then i <= i' <= hi else i' = hi + 1) /\
      gpu w' = gpu w /\
      tick w' = (tick w + Z.to_nat (i' - i) + (if jump then 1 else 0))%nat /\
      exists evs, trace w' = trace w ++ evs.
Proof.
  intros Hb Hhi.
  induction fuel as [|fuel IH]; intros i dj w Hi Hfuel; [lia|].
  destruct (Z_le_gt_dec i hi) as [Hle | Hgt].
  - rewrite (sweep_step _ _ _ _ ev _ _ _ _ Hb) by lia. cbn zeta.
    destruct (fst (dj_push dj (gpu w (tick w)))).
    + do 4 eexists. split; [reflexivity|]. cbn.
      repeat split; try lia. eauto.
    + rewrite u32_small by lia.
      edestruct (IH (i + 1))
        as (i' & jump & dj' & w' & -> & Hr & Hg & Ht & evs & Htr);
        [lia | lia |].
      do 4 eexists. split; [reflexivity|].
      cbn in Hg, Ht, Htr. rewrite Hg, Ht, Htr, <- app_assoc.
      destruct jump; repeat split; try lia; eauto.
  - rewrite sweep_done by lia.
    do 4 eexists. split; [reflexivity|].
    repeat split; try lia. exists []. now rewrite app_nil_r.
Qed.

(** The sweep over [nreg] and its test: a count below [NREG_MAX], with at
    most 512 measurements. *)
Lemma find_nreg_max_shape fuel NITER w :
  (512 < fuel)%nat ->
  exists n w',
    find_nreg_max fuel NITER w = Some (n, w') /\
    0 <= n < RegCount.NREG_MAX /\
    gpu w' = gpu w /\ (tick w <= tick w' <= tick w + 512)%nat /\
    exists evs, trace w' = trace w ++ evs.
Proof.
  intros Hfuel. unfold find_nreg_max, nreg_sweep.
  destruct (sweep_ends _ _ nreg_line RegCount.NREG_MAX
              (nreg_bench_like NITER) eq_refl fuel RegCount.NREG_MIN
              reg_count_dj w)
    as (i' & jump & dj' & w' & Heq & Hr & Hg & Ht & evs & Htr).
  { unfold RegCount.NREG_MIN, RegCount.NREG_MAX. lia. }
  { unfold RegCount.NREG_MIN, RegCount.NREG_MAX. lia. }
  unfold bind, RegCount.NREG_STEP. rewrite Heq.
  unfold RegCount.NREG_MIN, RegCount.NREG_MAX in *.
  destruct jump; unfold ret.
  - rewrite u32_small by lia.
    assert (Hlt : (512 <=? i' - 1) = false) by (apply Z.leb_gt; lia).
    rewrite Hlt. cbn [get_local]. unfold ret. rewrite cout_eq.
    do 2 eexists. split; [reflexivity|]. cbn. rewrite Htr, <- app_assoc.
    repeat split; try assumption; try lia; eauto.
  - subst i'. cbn [Z.leb Z.add Z.compare Pos.compare Pos.compare_cont
                   Pos.add].
    rewrite cout_eq.
    do 2 eexists. split; [reflexivity|]. cbn.
    unfold RegCount.NREG_STEP. rewrite Htr, <- app_assoc.
    repeat split; try assumption; try lia; eauto.
Qed.

(** [find_ngrp_by_nreg]: a count below [NGRP_MAX], with at most 64
    measurements. *)
Lemma find_ngrp_shape fuel NITER nreg w :
  (64 < fuel)%nat ->
  exists n w',
    find_ngrp_by_nreg fuel NITER nreg w = Some (n, w') /\
    0 <= n < RegCount.NGRP_MAX /\
    gpu w' = gpu w /\ (tick w <= tick w' <= tick w + 64)%nat /\
    exists evs, trace w' = trace w ++ evs.
Proof.
  intros Hfuel. unfold find_ngrp_by_nreg.
  destruct (sweep_ends _ _ (ngrp_line nreg) RegCount.NGRP_MAX
              (ngrp_bench_like NITER nreg) eq_refl fuel RegCount.NGRP_MIN
              find_ngrp_dj w)
    as (i' & jump & dj' & w' & Heq & Hr & Hg & Ht & evs & Htr).
  { unfold RegCount.NGRP_MIN, RegCount.NGRP_MAX. lia. }
  { unfold RegCount.NGRP_MIN, RegCount.NGRP_MAX. lia. }
  unfold bind, RegCount.NGRP_STEP. rewrite Heq.
  unfold RegCount.NGRP_MIN, RegCount.NGRP_MAX in *.
  destruct jump; rewrite cout_eq; unfold ret.
  - rewrite u32_small by lia.
    do 2 eexists. split; [reflexivity|]. cbn. rewrite Htr, <- app_assoc.
    repeat split; try assumption; try lia; eauto.
  - do 2 eexists. split; [reflexivity|]. cbn. rewrite Htr, <- app_assoc.
    repeat split; try assumption; try lia; eauto.
Qed.

(** The lines that close [reg_count], lines 131-149. *)
Lemma reg_count_run fuel w0 niter w1 nmax w2 full w3 half w4 :
  ensure_min_niter 1000 (fun NITER => reg_bench NITER 1 RegCount.NREG_MIN)
    (advance w0 0
       [Cout []; Cout [Str "------ Register Count ------"];
        Cout [Str "Calculating NITER..."]])
  = Some (niter, w1) ->
  find_nreg_max fuel niter (advance w1 0 [Cout [Str "NITER,"; Num niter]])
  = Some (nmax, w2) ->
  find_ngrp_by_nreg fuel niter nmax w2 = Some (full, w3) ->
  find_ngrp_by_nreg fuel niter (nmax / 2) w3 = Some (half, w4) ->
  let pooled := Qltb (inject_Z full * (15 # 10)) (inject_Z half) in
  reg_count ensure_min_niter fuel w0 =
  Some ({| NITER := niter; nreg_max := nmax; ngrp_full := full;
           ngrp_half := half;
           reg_ty := if pooled then "Pooled" else "Dedicated" |},
        advance w4 0
          [Cout (if pooled
                 then [Str "All physical threads in an sm share "; Num nmax;
                       Str " registers"]
                 else [Str "Each physical thread has "; Num nmax;
                       Str " registers"]);
           Cout []; Cout [];
           Cout [Str "NITER,"; Num niter];
           Cout [Str "Max registers,"; Num nmax];
           Cout [Str "Concurrent full single thread workgroups,"; Num full];
           Cout [Str "Concurrent half single thread workgroups,"; Num half];
           Cout [Str "Register type,";
                 Str (if pooled then "Pooled" else "Dedicated")]]).
Proof.
  intros Hniter H2 H3 H4 pooled.
  unfold reg_count.
  rewrite !bind_cout, !advance_advance. cbn [Nat.add List.app].
  rewrite (bind_Some _ _ _ _ _ Hniter), bind_cout.
  rewrite (bind_Some _ _ _ _ _ H2), (bind_Some _ _ _ _ _ H3),
    (bind_Some _ _ _ _ _ H4).
  unfold classify_reg_ty. fold pooled.
  destruct pooled;
    unfold bind at 1; rewrite bind_cout; unfold ret;
    rewrite !bind_cout, !advance_advance; cbn [Nat.add List.app];
    reflexivity.
Qed.

Lemma first_jump_at_advance_0 (dj : D) w evs k :
  first_jump_at dj (advance w 0 evs) k <-> first_jump_at dj w k.
Proof. unfold first_jump_at. now rewrite samples_advance_0. Qed.

Lemma no_jump_in_eq (dj : D) w w' n :
  gpu w' = gpu w -> tick w' = tick w ->
  no_jump_in dj w' n <-> no_jump_in dj w n.
Proof.
  intros Hg Ht. unfold no_jump_in. now rewrite (samples_eq w w' n Hg Ht).
Qed.

(** *** [App::reg_count] as a whole *)

(** X1.  When the first jump of the sweep over [nreg] is at the
    measurement of index [k], that is at [nreg = k + 1], [reg_count] ends
    and reports [k] as the maximal register count: the candidate before the
    jump.  It prints that [k] registers are available at most and closes
    with the line "Max registers,k". *)
Theorem reg_count_reports_candidate_before_jump (fuel : nat) (w0 : World)
    (niter : Z) (w1 : World) (k : nat) :
  (512 < fuel)%nat ->
  ensure_min_niter 1000 (fun NITER => reg_bench NITER 1 RegCount.NREG_MIN)
    (advance w0 0
       [Cout []; Cout [Str "------ Register Count ------"];
        Cout [Str "Calculating NITER..."]])
  = Some (niter, w1) ->
  Z.of_nat k < RegCount.NREG_MAX ->
  first_jump_at reg_count_dj w1 k ->
  exists r w',
    reg_count ensure_min_niter fuel w0 = Some (r, w') /\
    nreg_max r = Z.of_nat k /\
    In (Cout [Num (Z.of_nat k); Str " registers are available at most"])
       (trace w') /\
    In (Cout [Str "Max registers,"; Num (Z.of_nat k)]) (trace w').
Proof.
  intros Hfuel Hniter Hk Hj.
  apply (first_jump_at_advance_0 _ _ [Cout [Str "NITER,"; Num niter]])
    in Hj.
  assert (Hkf : (k < fuel)%nat) by (unfold RegCount.NREG_MAX in Hk; lia).
  pose proof (find_nreg_max_jump fuel niter _ k Hkf Hk Hj) as H2.
  match type of H2 with _ = Some (_, ?w) => set (w2 := w) in * end.
  destruct (find_ngrp_shape fuel niter (Z.of_nat k) w2 ltac:(lia))
    as (full & w3 & H3 & _ & _ & _ & evs3 & Htr3).
  destruct (find_ngrp_shape fuel niter (Z.of_nat k / 2) w3 ltac:(lia))
    as (half & w4 & H4 & _ & _ & _ & evs4 & Htr4).
  pose proof (reg_count_run _ _ _ _ _ _ _ _ _ _
                Hniter H2 H3 H4) as Hrun.
  cbv zeta in Hrun. rewrite Hrun.
  do 2 eexists. split; [reflexivity|].
  split; [reflexivity|].
  cbn [trace advance]. rewrite Htr4, Htr3. cbn [trace advance w2].
  split.
  - rewrite !in_app_iff. do 3 left. right. right. now left.
  - rewrite !in_app_iff. right. cbn. tauto.
Qed.

(** X2.  When neither the sweep over [nreg] nor the two sweeps of
    [find_ngrp_by_nreg] meet a jump, [reg_count] takes 512 + 64 + 64
    measurements and reports 1 register, 1 and 1 concurrent workgroups and
    the register type "Dedicated"; the second occupancy sweep is run with
    [nreg_max / 2 = 0] registers, that is on the shader [reg_count_0]. *)
Theorem reg_count_without_jump (fuel : nat) (w0 : World) (niter : Z)
    (w1 : World) :
  (512 < fuel)%nat ->
  ensure_min_niter 1000 (fun NITER => reg_bench NITER 1 RegCount.NREG_MIN)
    (advance w0 0
       [Cout []; Cout [Str "------ Register Count ------"];
        Cout [Str "Calculating NITER..."]])
  = Some (niter, w1) ->
  no_jump_in reg_count_dj w1 512 ->
  no_jump_in find_ngrp_dj (advance w1 512 []) 64 ->
  no_jump_in find_ngrp_dj (advance w1 576 []) 64 ->
  exists w',
    reg_count ensure_min_niter fuel w0
    = Some ({| NITER := niter; nreg_max := 1; ngrp_full := 1; ngrp_half := 1;
               reg_ty := "Dedicated" |}, w') /\
    tick w' = (tick w1 + 640)%nat /\
    In (reg_bench_event niter 1 0) (trace w') /\
    In (Cout [Str "Register type,"; Str "Dedicated"]) (trace w').
Proof.
  intros Hfuel Hniter Hj1 Hj2 Hj3.
  apply (no_jump_in_eq _ w1 (advance w1 0 [Cout [Str "NITER,"; Num niter]]))
    in Hj1; [|reflexivity | cbn; lia].
  pose proof (find_nreg_max_exhaust fuel niter _ Hfuel Hj1) as H2.
  match type of H2 with _ = Some (_, ?w) => set (w2 := w) in * end.
  apply (no_jump_in_eq _ _ w2) in Hj2; [|reflexivity | cbn; lia].
  pose proof (find_ngrp_exhaust fuel niter RegCount.NREG_STEP w2
                ltac:(lia) Hj2) as H3.
  match type of H3 with _ = Some (_, ?w) => set (w3 := w) in * end.
  apply (no_jump_in_eq _ _ w3) in Hj3; [|reflexivity | cbn; lia].
  pose proof (find_ngrp_exhaust fuel niter (RegCount.NREG_STEP / 2) w3
                ltac:(lia) Hj3) as H4.
  match type of H4 with _ = Some (_, ?w) => set (w4 := w) in * end.
  pose proof (reg_count_run _ _ _ _ _ _ _ _ _ _
                Hniter H2 H3 H4) as Hrun.
  cbv zeta in Hrun. rewrite Hrun.
  eexists. split; [reflexivity|].
  split; [cbn; lia|].
  cbn [trace advance w4]. split.
  - rewrite !in_app_iff. left. right. left.
    change 64%nat with (S 63). rewrite (samples_S w3 (advance w3 1 []))
      by (cbn; auto; lia).
    left. reflexivity.
  - rewrite !in_app_iff. right. cbn. tauto.
Qed.

(** [reg_count] ends within its bounds. *)
Lemma reg_count_shape (fuel : nat) (w0 : World) (niter : Z) (w1 : World) :
  (512 < fuel)%nat ->
  ensure_min_niter 1000 (fun NITER => reg_bench NITER 1 RegCount.NREG_MIN)
    (advance w0 0
       [Cout []; Cout [Str "------ Register Count ------"];
        Cout [Str "Calculating NITER..."]])
  = Some (niter, w1) ->
  exists r w',
    reg_count ensure_min_niter fuel w0 = Some (r, w') /\
    0 <= nreg_max r < RegCount.NREG_MAX /\
    0 <= ngrp_full r < RegCount.NGRP_MAX /\
    0 <= ngrp_half r < RegCount.NGRP_MAX /\
    gpu w' = gpu w1 /\
    (tick w1 <= tick w' <= tick w1 + 640)%nat /\
    exists evs, trace w' = trace w1 ++ evs.
Proof.
  intros Hfuel Hniter.
  destruct (find_nreg_max_shape fuel niter
              (advance w1 0 [Cout [Str "NITER,"; Num niter]]) Hfuel)
    as (nmax & w2 & H2 & Hn2 & Hg2 & Ht2 & evs2 & Htr2).
  destruct (find_ngrp_shape fuel niter nmax w2 ltac:(lia))
    as (full & w3 & H3 & Hn3 & Hg3 & Ht3 & evs3 & Htr3).
  destruct (find_ngrp_shape fuel niter (nmax / 2) w3 ltac:(lia))
    as (half & w4 & H4 & Hn4 & Hg4 & Ht4 & evs4 & Htr4).
  pose proof (reg_count_run _ _ _ _ _ _ _ _ _ _
                Hniter H2 H3 H4) as Hrun.
  cbv zeta in Hrun. rewrite Hrun.
  do 2 eexists. split; [reflexivity|].
  cbn [nreg_max ngrp_full ngrp_half gpu tick trace advance] in *.
  repeat split; try lia; try congruence.
  rewrite Htr4, Htr3, Htr2, <- !app_assoc. eauto.
Qed.

(** X3.  Whatever the device measures, with fuel for its sweeps
    [reg_count] ends; it never reports [NREG_MAX] registers nor [NGRP_MAX]
    workgroups (the counts stay within 0..511 and 0..63), it leaves the
    device as it was and takes at most 512 + 64 + 64 measurements after the
    calibration of [NITER], and it only adds to the trace. *)
Theorem reg_count_bounds (fuel : nat) (w0 : World) (niter : Z) (w1 : World) :
  (512 < fuel)%nat ->
  ensure_min_niter 1000 (fun NITER => reg_bench NITER 1 RegCount.NREG_MIN)
    (advance w0 0
       [Cout []; Cout [Str "------ Register Count ------"];
        Cout [Str "Calculating NITER..."]])
  = Some (niter, w1) ->
  exists r w',
    reg_count ensure_min_niter fuel w0 = Some (r, w') /\
    0 <= nreg_max r < RegCount.NREG_MAX /\
    0 <= ngrp_full r < RegCount.NGRP_MAX /\
    0 <= ngrp_half r < RegCount.NGRP_MAX /\
    gpu w' = gpu w1 /\
    (tick w1 <= tick w' <= tick w1 + 640)%nat /\
    exists evs, trace w' = trace w1 ++ evs.
Proof. apply reg_count_shape. Qed.

(** *** [App::buf_cacheline_size] as a whole *)

(** The part of [buf_cacheline_size] around the sweep and its test. *)
Lemma buf_cacheline_size_run app fuel w0 niter w c w' :
  nthread_logic_ app <> 0 ->
  ensure_min_niter 1000 (fun NITER => cacheline_bench app NITER 1)
    (advance w0 0
       [Cout []; Cout [Str "------ Buffer Cacheline Size ------"]])
  = Some (niter, w) ->
  find_cacheline_size app fuel niter w = Some (c, w') ->
  buf_cacheline_size ensure_min_niter app fuel w0
  = Some (c, advance w' 0 [Cout (cacheline_report c)]).
Proof.
  intros Hnt Hniter Hfind. unfold buf_cacheline_size.
  rewrite !bind_cout, !advance_advance. cbn [Nat.add List.app].
  apply Z.eqb_neq in Hnt. rewrite Hnt.
  rewrite (bind_Some _ _ _ _ _ Hniter), (bind_Some _ _ _ _ _ Hfind).
  now rewrite bind_cout.
Qed.

Lemma find_cacheline_size_before app fuel NITER w k :
  (k < fuel)%nat -> 1 + Z.of_nat k < BufCacheline.MAX_STRIDE app ->
  first_jump_at cacheline_dj w k ->
  find_cacheline_size app fuel NITER w =
  Some (u32 ((1 + Z.of_nat k) * sizeof_float),
        advance w (S k)
          (sweep_trace (cacheline_bench_event app NITER) stride_line 1
             (samples w (S k)))).
Proof.
  intros Hfuel Hk Hj. unfold find_cacheline_size.
  rewrite (bind_Some _ _ _ _ _ (stride_sweep_jump app fuel NITER w k
                                  Hfuel ltac:(lia) Hj)).
  apply Z.leb_gt in Hk. rewrite Hk.
  unfold bind, ret. reflexivity.
Qed.

(** The sweep over [stride] and its test end when [MAX_STRIDE] is below
    [2^32 - 1]: by a jump before [MAX_STRIDE], whose stride gives the size,
    or with [MAX_STRIDE]. *)
Lemma find_cacheline_size_shape app fuel NITER w :
  BufCacheline.MAX_STRIDE app < 2 ^ 32 - 1 ->
  (Z.to_nat (BufCacheline.MAX_STRIDE app) < fuel)%nat ->
  exists c w',
    find_cacheline_size app fuel NITER w = Some (c, w') /\
    (c = BufCacheline.MAX_STRIDE app \/
     exists stride,
       1 <= stride < BufCacheline.MAX_STRIDE app /\
       c = u32 (stride * sizeof_float)) /\
    gpu w' = gpu w /\
    (tick w <= tick w'
     <= tick w + Z.to_nat (BufCacheline.MAX_STRIDE app))%nat /\
    exists evs, trace w' = trace w ++ evs.
Proof.
  intros Hmax Hfuel.
  pose proof (MAX_STRIDE_range app) as Hr.
  unfold find_cacheline_size, stride_sweep.
  destruct (sweep_ends _ _ stride_line (BufCacheline.MAX_STRIDE app)
              (cacheline_bench_like app NITER) ltac:(lia) fuel 1
              cacheline_dj w)
    as (i' & jump & dj' & w' & Heq & Hi & Hg & Ht & evs & Htr);
    [lia | lia |].
  unfold bind. rewrite Heq.
  destruct jump; unfold ret.
  - destruct (BufCacheline.MAX_STRIDE app <=? i') eqn:Hle.
    + rewrite cout_eq. cbn [get_local]. unfold ret.
      do 2 eexists. split; [reflexivity|]. cbn. rewrite Htr, <- app_assoc.
      repeat split; try assumption; try lia; eauto.
    + apply Z.leb_gt in Hle. cbn [get_local]. unfold ret.
      do 2 eexists. split; [reflexivity|].
      repeat split; try assumption; try lia; eauto.
      right. exists i'. split; [lia | reflexivity].
  - subst i'.
    assert (Hle : (BufCacheline.MAX_STRIDE app
                   <=? BufCacheline.MAX_STRIDE app + 1) = true)
      by (apply Z.leb_le; lia).
    rewrite Hle, cout_eq. cbn [get_local]. unfold ret.
    do 2 eexists. split; [reflexivity|]. cbn. rewrite Htr, <- app_assoc.
    repeat split; try assumption; try lia; eauto.
Qed.

(** X4.  When the first jump of the sweep over [stride] is at the
    measurement of index [k] and the stride [1 + k] is below [MAX_STRIDE],
    [buf_cacheline_size] takes the [k + 1] measurements, prints no
    "Unable to conclude" line and reports [stride * sizeof(float)] in 32
    bits, which is [4 * (1 + k)] for every stride below [2^30]. *)
Theorem cacheline_size_from_stride (app : App) (fuel : nat) (w0 : World)
    (niter : Z) (w : World) (k : nat) :
  nthread_logic_ app <> 0 ->
  ensure_min_niter 1000 (fun NITER => cacheline_bench app NITER 1)
    (advance w0 0
       [Cout []; Cout [Str "------ Buffer Cacheline Size ------"]])
  = Some (niter, w) ->
  (k < fuel)%nat ->
  1 + Z.of_nat k < BufCacheline.MAX_STRIDE app ->
  first_jump_at cacheline_dj w k ->
  let c := u32 ((1 + Z.of_nat k) * sizeof_float) in
  buf_cacheline_size ensure_min_niter app fuel w0
  = Some (c,
          advance w (S k)
            (sweep_trace (cacheline_bench_event app niter) stride_line 1
               (samples w (S k))
             ++ [Cout (cacheline_report c)])) /\
  (1 + Z.of_nat k < 2 ^ 30 -> c = 4 * (1 + Z.of_nat k)).
Proof.
  intros Hnt Hniter Hfuel Hk Hj c. split.
  - rewrite (buf_cacheline_size_run app fuel w0 niter w _ _ Hnt Hniter
               (find_cacheline_size_before app fuel niter w k Hfuel Hk Hj)).
    rewrite advance_advance, Nat.add_0_r. reflexivity.
  - intros Hsmall. unfold c, sizeof_float. rewrite u32_small; lia.
Qed.

(** X5.  On a device whose cache is smaller than its number of logical
    threads (a device that reports no cache, for one), [MAX_STRIDE] is 0:
    [buf_cacheline_size] runs no benchmark of its sweep, prints that it is
    unable to conclude and reports a cacheline size of 0. *)
Theorem cacheline_size_without_cache (app : App) (fuel : nat) (w0 : World)
    (niter : Z) (w : World) :
  0 <= buf_cache_size_ app < nthread_logic_ app ->
  ensure_min_niter 1000 (fun NITER => cacheline_bench app NITER 1)
    (advance w0 0
       [Cout []; Cout [Str "------ Buffer Cacheline Size ------"]])
  = Some (niter, w) ->
  (0 < fuel)%nat ->
  BufCacheline.MAX_STRIDE app = 0 /\
  buf_cacheline_size ensure_min_niter app fuel w0
  = Some (0, advance w 0 [Cout cacheline_unable; Cout (cacheline_report 0)]).
Proof.
  intros Hcache Hniter Hfuel.
  assert (Hmax : BufCacheline.MAX_STRIDE app = 0).
  { unfold BufCacheline.MAX_STRIDE, BufCacheline.PITCH.
    rewrite Z.div_small by lia. reflexivity. }
  split; [exact Hmax|].
  assert (Hfind : find_cacheline_size app fuel niter w
                  = Some (0, advance w 0 [Cout cacheline_unable])).
  { unfold find_cacheline_size, stride_sweep, bind.
    destruct fuel as [|fuel]; [lia|].
    rewrite sweep_done by lia. unfold ret. rewrite Hmax.
    cbn [Z.leb Z.compare]. rewrite cout_eq. reflexivity. }
  rewrite (buf_cacheline_size_run app fuel w0 niter w _ _ ltac:(lia)
             Hniter Hfind).
  rewrite advance_advance. reflexivity.
Qed.

(** [buf_cacheline_size] ends within its bounds. *)
Lemma buf_cacheline_size_shape (app : App) (fuel : nat) (w0 : World)
    (niter : Z) (w : World) :
  nthread_logic_ app <> 0 ->
  ensure_min_niter 1000 (fun NITER => cacheline_bench app NITER 1)
    (advance w0 0
       [Cout []; Cout [Str "------ Buffer Cacheline Size ------"]])
  = Some (niter, w) ->
  BufCacheline.MAX_STRIDE app < 2 ^ 32 - 1 ->
  (Z.to_nat (BufCacheline.MAX_STRIDE app) < fuel)%nat ->
  exists c w',
    buf_cacheline_size ensure_min_niter app fuel w0 = Some (c, w') /\
    (c = BufCacheline.MAX_STRIDE app \/
     exists stride,
       1 <= stride < BufCacheline.MAX_STRIDE app /\
       c = u32 (stride * sizeof_float)) /\
    gpu w' = gpu w /\
    (tick w <= tick w'
     <= tick w + Z.to_nat (BufCacheline.MAX_STRIDE app))%nat /\
    exists evs,
      trace w' = trace w ++ evs ++ [Cout (cacheline_report c)].
Proof.
  intros Hnt Hniter Hmax Hfuel.
  destruct (find_cacheline_size_shape app fuel niter w Hmax Hfuel)
    as (c & w' & Hfind & Hc & Hg & Ht & evs & Htr).
  rewrite (buf_cacheline_size_run app fuel w0 niter w c w' Hnt Hniter Hfind).
  do 2 eexists. split; [reflexivity|]. cbn.
  rewrite Htr, <- app_assoc.
  repeat split; try assumption; try lia. eauto.
Qed.

(** X6.  With [MAX_STRIDE] below [2^32 - 1] and fuel for every stride,
    [buf_cacheline_size] ends whatever the device measures.  What it
    reports is [MAX_STRIDE] itself or four times (in 32 bits) a stride
    strictly between 0 and [MAX_STRIDE]; it takes at most [MAX_STRIDE]
    measurements after the calibration of [NITER], leaves the device as it
    was and only adds to the trace, ending with the report line. *)
Theorem cacheline_size_bounds (app : App) (fuel : nat) (w0 : World)
    (niter : Z) (w : World) :
  nthread_logic_ app <> 0 ->
  ensure_min_niter 1000 (fun NITER => cacheline_bench app NITER 1)
    (advance w0 0
       [Cout []; Cout [Str "------ Buffer Cacheline Size ------"]])
  = Some (niter, w) ->
  BufCacheline.MAX_STRIDE app < 2 ^ 32 - 1 ->
  (Z.to_nat (BufCacheline.MAX_STRIDE app) < fuel)%nat ->
  exists c w',
    buf_cacheline_size ensure_min_niter app fuel w0 = Some (c, w') /\
    (c = BufCacheline.MAX_STRIDE app \/
     exists stride,
       1 <= stride < BufCacheline.MAX_STRIDE app /\
       c = u32 (stride * sizeof_float)) /\
    gpu w' = gpu w /\
    (tick w <= tick w'
     <= tick w + Z.to_nat (BufCacheline.MAX_STRIDE app))%nat /\
    exists evs,
      trace w' = trace w ++ evs ++ [Cout (cacheline_report c)].
Proof. apply buf_cacheline_size_shape. Qed.

(** With [MAX_STRIDE] at [2^32 - 1] a sweep that meets no jump does not
    end. *)
Lemma sweep_unending bench ev line :
  bench_like bench ev ->
  forall fuel i (dj : D) w,
    0 <= i < 2 ^ 32 ->
    (forall n, no_jump_in dj w n) ->
    sweep fuel (2 ^ 32 - 1) 1 bench line i dj w = None.
Proof.
  intros Hb. unfold no_jump_in.
  induction fuel as [|fuel IH]; intros i dj w Hi Hnj; [reflexivity|].
  rewrite (sweep_step _ _ _ _ ev _ _ _ _ Hb) by lia. cbn zeta.
  set (x := gpu w (tick w)).
  set (w' := advance w 1 [ev i; Cout (line i x)]).
  assert (Hstep : forall n,
             fst (dj_push dj x) = false /\
             detect (snd (dj_push dj x)) (samples w' n) = None).
  { intros n. specialize (Hnj (S n)).
    rewrite (samples_S w w' n eq_refl) in Hnj by (cbn; lia).
    fold x in Hnj. rewrite detect_cons in Hnj.
    destruct (fst (dj_push dj x)); [discriminate|].
    split; auto. destruct (detect _ _); [discriminate | reflexivity]. }
  destruct (Hstep 0%nat) as [-> _].
  apply IH; [apply u32_range|]. intros n. apply Hstep.
Qed.

(** X12.  When [MAX_STRIDE] is [2^32 - 1], [stride] wraps to 0 before it
    can pass [MAX_STRIDE]: on a device whose measurements never make the
    detector report a jump, the sweep of [buf_cacheline_size] does not end,
    whatever fuel it is given. *)
Theorem stride_sweep_unending (app : App) (NITER : Z) (w : World) :
  BufCacheline.MAX_STRIDE app = 2 ^ 32 - 1 ->
  (forall n, no_jump_in cacheline_dj w n) ->
  forall fuel, stride_sweep app fuel NITER w = None.
Proof.
  intros Hmax Hnj fuel. unfold stride_sweep, bind. rewrite Hmax.
  rewrite (sweep_unending _ _ stride_line (cacheline_bench_like app NITER))
    by (auto; lia).
  reflexivity.
Qed.

End WithDetector.

(** *** On concrete devices, with the detector of [stats.h] *)

Import Examples.

Lemma one_trial_reg w0 :
  one_trial 1000 (fun NITER => reg_bench NITER 1 RegCount.NREG_MIN)
    (advance w0 0
       [Cout []; Cout [Str "------ Register Count ------"];
        Cout [Str "Calculating NITER..."]])
  = Some (1000, reg_calibrated w0).
Proof.
  unfold one_trial, bind, reg_bench. rewrite benchmark_on_gpu_eq.
  now rewrite advance_advance.
Qed.

Lemma one_trial_cacheline app w0 :
  one_trial 1000 (fun NITER => cacheline_bench app NITER 1)
    (advance w0 0
       [Cout []; Cout [Str "------ Buffer Cacheline Size ------"]])
  = Some (1000, cacheline_calibrated app w0).
Proof.
  unfold one_trial, bind, cacheline_bench. rewrite benchmark_on_gpu_eq.
  now rewrite advance_advance.
Qed.

(** On a flat device the detector of [stats.h] never answers a jump. *)
Lemma flat_world_no_jump ntap c t v (w : World) n :
  (1 <= ntap)%nat -> (forall j, gpu w j = v) ->
  no_jump_in (Stats.new ntap c t) w n.
Proof.
  intros Hn Hflat. unfold no_jump_in, detect.
  assert (Hs : samples w n = repeat v n).
  { unfold samples. rewrite (map_ext _ (fun _ => v)) by (intros; apply Hflat).
    now rewrite map_const, length_seq. }
  rewrite Hs.
  destruct (StatsFacts.feed_flat (Stats.new ntap c t) v 0 n Hn eq_refl
              (Nat.le_0_l _)) as [-> _].
  apply first_true_all_false.
Qed.

Lemma reg_count_reports_candidate_before_jump_witness :
  exists r w',
    reg_count one_trial 513 (knee_world 1 100 8) = Some (r, w') /\
    nreg_max r = 7 /\
    In (Cout [Num 7; Str " registers are available at most"]) (trace w') /\
    In (Cout [Str "Max registers,"; Num 7]) (trace w').
Proof.
  apply (reg_count_reports_candidate_before_jump
           (D := Stats.DtJumpFinder) one_trial 513 (knee_world 1 100 8)
           1000 (reg_calibrated (knee_world 1 100 8)) 7).
  - lia.
  - apply one_trial_reg.
  - reflexivity.
  - reflexivity.
Defined.

Lemma reg_count_without_jump_witness :
  exists w',
    reg_count one_trial 513 (flat_world 1)
    = Some ({| NITER := 1000; nreg_max := 1; ngrp_full := 1; ngrp_half := 1;
               reg_ty := "Dedicated" |}, w') /\
    tick w' = 641%nat /\
    In (reg_bench_event 1000 1 0) (trace w') /\
    In (Cout [Str "Register type,"; Str "Dedicated"]) (trace w').
Proof.
  apply (reg_count_without_jump (D := Stats.DtJumpFinder) one_trial 513
           (flat_world 1) 1000 (reg_calibrated (flat_world 1))).
  - lia.
  - apply one_trial_reg.
  - vm_compute. reflexivity.
  - vm_compute. reflexivity.
  - vm_compute. reflexivity.
Defined.

Lemma reg_count_bounds_witness :
  exists r w',
    reg_count one_trial 513 (knee_world 1 100 8) = Some (r, w') /\
    0 <= nreg_max r < 512 /\ 0 <= ngrp_full r < 64 /\
    0 <= ngrp_half r < 64 /\ (tick w' <= 641)%nat.
Proof.
  destruct (reg_count_bounds (D := Stats.DtJumpFinder) one_trial 513
              (knee_world 1 100 8) 1000
              (reg_calibrated (knee_world 1 100 8)) ltac:(lia)
              (one_trial_reg (knee_world 1 100 8)))
    as (r & w' & Hrun & Hn & Hf & Hh & _ & Ht & _).
  exists r, w'. cbn in Ht. repeat split; try assumption; try apply Hn;
    try apply Hf; try apply Hh; lia.
Defined.

Lemma cacheline_size_from_stride_witness :
  option_map fst (buf_cacheline_size one_trial phone_gpu 8 (knee_world 1 100 6))
  = Some 24.
Proof.
  destruct (cacheline_size_from_stride (D := Stats.DtJumpFinder) one_trial
              phone_gpu 8 (knee_world 1 100 6) 1000
              (cacheline_calibrated phone_gpu (knee_world 1 100 6)) 5)
    as [Hrun _].
  - cbn. lia.
  - apply one_trial_cacheline.
  - lia.
  - reflexivity.
  - reflexivity.
  - rewrite Hrun. reflexivity.
Defined.

Lemma cacheline_size_without_cache_witness :
  BufCacheline.MAX_STRIDE no_cache = 0 /\
  option_map (fun r => (fst r, tick (snd r)))
    (buf_cacheline_size (D := Stats.DtJumpFinder) one_trial no_cache 1
       (flat_world 1))
  = Some (0, 1%nat).
Proof.
  destruct (cacheline_size_without_cache (D := Stats.DtJumpFinder) one_trial
              no_cache 1 (flat_world 1) 1000
              (cacheline_calibrated no_cache (flat_world 1)))
    as [Hmax Hrun].
  - cbn. lia.
  - apply one_trial_cacheline.
  - lia.
  - split; [exact Hmax|]. rewrite Hrun. reflexivity.
Defined.

Lemma cacheline_size_bounds_witness :
  exists c w',
    buf_cacheline_size one_trial phone_gpu 65 (knee_world 1 100 6)
    = Some (c, w') /\
    (c = 64 \/ exists stride, 1 <= stride < 64 /\ c = u32 (stride * 4)) /\
    (tick w' <= 65)%nat.
Proof.
  destruct (cacheline_size_bounds (D := Stats.DtJumpFinder) one_trial
              phone_gpu 65 (knee_world 1 100 6) 1000
              (cacheline_calibrated phone_gpu (knee_world 1 100 6)))
    as (c & w' & Hrun & Hc & _ & Ht & _).
  - cbn. lia.
  - apply one_trial_cacheline.
  - reflexivity.
  - vm_compute. lia.
  - exists c, w'. split; [exact Hrun|]. split; [exact Hc|].
    cbn in Ht. change (Z.to_nat (BufCacheline.MAX_STRIDE phone_gpu))
      with 64%nat in Ht. lia.
Defined.

Lemma stride_sweep_unending_witness :
  stride_sweep (D := Stats.DtJumpFinder) huge_pitch 100 1000 (flat_world 1)
  = None.
Proof.
  apply (stride_sweep_unending (D := Stats.DtJumpFinder) huge_pitch 1000
           (flat_world 1)).
  - reflexivity.
  - intros n. apply (flat_world_no_jump 5 _ _ 1); [lia | reflexivity].
Defined.

End RunFacts.

(** ** The bandwidth test *)

Module BandwidthFacts.
Import App Bandwidth AppFacts RunFacts.
Local Open Scope string_scope.
Local Open Scope list_scope.
Local Open Scope Z_scope.

Lemma bandwidth_bench_eq app access_size w :
  bandwidth_bench app access_size w =
  let time := gpu w (tick w) in
  Some (gbps_of app time,
        advance w 1
          [bandwidth_bench_event app access_size;
           Cout (bandwidth_line access_size (gbps_of app time) time)]).
Proof.
  unfold bandwidth_bench, bind.
  rewrite benchmark_on_gpu_eq, cout_eq, advance_advance. reflexivity.
Qed.

Lemma pow2_bounds (a : nat) (b : Z) :
  Z.of_nat a <= b -> 1 <= 2 ^ Z.of_nat a <= 2 ^ b.
Proof.
  intros Hab. split.
  - apply (Z.pow_le_mono_r 2 0 (Z.of_nat a)); lia.
  - apply Z.pow_le_mono_r; lia.
Qed.

(** The loop from its [a]-th turn on, with [n] turns left. *)
Lemma bandwidth_loop_run app w :
  forall n a fuel acc wc,
    gpu wc = gpu w -> tick wc = (tick w + a)%nat ->
    (a + n = 23)%nat -> (n < fuel)%nat ->
    bandwidth_loop fuel app (VEC_SIZE * 2 ^ Z.of_nat a) (fst acc) (snd acc) wc
    = Some (fold_left track
              (map (fun j => gbps_of app (gpu w (tick w + j)%nat)) (seq a n))
              acc,
            advance wc n (flat_map (bandwidth_turn app w) (seq a n))).
Proof.
  change VEC_SIZE with 16.
  induction n as [|n IH]; intros a fuel acc wc Hg Ht Han Hfuel;
    (destruct fuel as [|fuel]; [lia|]); cbn [bandwidth_loop].
  - assert (a = 23%nat) by lia. subst a.
    cbn [seq map fold_left flat_map]. rewrite advance_0_nil.
    destruct acc. reflexivity.
  - pose proof (pow2_bounds a 22 ltac:(lia)) as Hp.
    change (2 ^ 22) with 4194304 in Hp.
    assert (Hlt : (16 * 2 ^ Z.of_nat a <? RANGE) = true).
    { apply Z.ltb_lt. unfold RANGE. lia. }
    rewrite Hlt. unfold bind at 1. rewrite bandwidth_bench_eq. cbn zeta.
    rewrite u32_small by lia.
    replace (16 * 2 ^ Z.of_nat a * 2) with (16 * 2 ^ Z.of_nat (S a))
      by (rewrite Nat2Z.inj_succ, Z.pow_succ_r; lia).
    rewrite (IH (S a) fuel
               (std_max (gbps_of app (gpu wc (tick wc))) (fst acc),
                std_min (gbps_of app (gpu wc (tick wc))) (snd acc)))
      by (cbn; auto; lia).
    rewrite advance_advance.
    cbn [seq map fold_left flat_map].
    unfold track at 2, bandwidth_turn at 2. rewrite Hg, Ht.
    reflexivity.
Qed.

Lemma buf_bandwidth_run app fuel w :
  nthread_logic_ app <> 0 -> (23 < fuel)%nat ->
  let gs := map (fun j => gbps_of app (gpu w (tick w + j)%nat)) (seq 0 23) in
  let r := fold_left track gs (0%Q, DBL_MAX) in
  buf_bandwidth app fuel w =
  Some (r,
        advance w 23
          (Cout bandwidth_header
           :: flat_map (bandwidth_turn app w) (seq 0 23)
           ++ map Cout (bandwidth_report (fst r) (snd r)))).
Proof.
  intros Hnt Hfuel gs r. unfold buf_bandwidth.
  rewrite bind_cout. apply Z.eqb_neq in Hnt. rewrite Hnt.
  unfold bind at 1.
  rewrite (bandwidth_loop_run app w 23 0 fuel (0%Q, DBL_MAX))
    by (cbn; auto; lia).
  fold gs. fold r. destruct r as [mx mn].
  rewrite !bind_cout. unfold ret. rewrite !advance_advance.
  cbn [fst snd bandwidth_report map Nat.add]. reflexivity.
Qed.

(** [std::max] and [std::min] return one of their arguments, on the right
    side of the other. *)
Lemma std_max_spec (a b : Q) :
  (std_max a b = a \/ std_max a b = b) /\
  (a <= std_max a b)%Q /\ (b <= std_max a b)%Q.
Proof.
  unfold std_max. destruct (Qltb a b) eqn:Hlt.
  - apply Qltb_lt in Hlt. repeat split; auto using Qlt_le_weak, Qle_refl.
  - assert (Hge : (b <= a)%Q).
    { apply Qnot_lt_le. intros Hc. apply Qltb_lt in Hc. congruence. }
    repeat split; auto using Qle_refl.
Qed.

Lemma std_min_spec (a b : Q) :
  (std_min a b = a \/ std_min a b = b) /\
  (std_min a b <= a)%Q /\ (std_min a b <= b)%Q.
Proof.
  unfold std_min. destruct (Qltb b a) eqn:Hlt.
  - apply Qltb_lt in Hlt. repeat split; auto using Qlt_le_weak, Qle_refl.
  - assert (Hge : (a <= b)%Q).
    { apply Qnot_lt_le. intros Hc. apply Qltb_lt in Hc. congruence. }
    repeat split; auto using Qle_refl.
Qed.

(** The running bounds enclose every bandwidth seen and are taken among
    them and their initial values. *)
Lemma fold_track_bounds (gs : list Q) :
  forall acc,
    let r := fold_left track gs acc in
    (fst acc <= fst r)%Q /\ (snd r <= snd acc)%Q /\
    In (fst r) (fst acc :: gs) /\ In (snd r) (snd acc :: gs) /\
    forall g, In g gs -> (snd r <= g <= fst r)%Q.
Proof.
  induction gs as [|g gs IH]; intros acc; cbv zeta; cbn [fold_left].
  - split; [apply Qle_refl|]. split; [apply Qle_refl|].
    split; [now left|]. split; [now left|]. intros g0 [].
  - destruct (IH (track acc g)) as (Hmx & Hmn & Hin1 & Hin2 & Hall).
    cbn [track fst snd] in *.
    destruct (std_max_spec g (fst acc)) as (Hor1 & Hg1 & Ha1).
    destruct (std_min_spec g (snd acc)) as (Hor2 & Hg2 & Ha2).
    split; [eapply Qle_trans; eassumption|].
    split; [eapply Qle_trans; eassumption|].
    split.
    { destruct Hin1 as [<- | Hin1]; [|right; now right].
      destruct Hor1 as [-> | ->]; [right; now left | now left]. }
    split.
    { destruct Hin2 as [<- | Hin2]; [|right; now right].
      destruct Hor2 as [-> | ->]; [right; now left | now left]. }
    intros g' [<- | Hg'].
    + split; eapply Qle_trans; eassumption.
    + now apply Hall.
Qed.

Lemma gbps_of_nonneg app (time : Q) : (0 < time)%Q -> (0 <= gbps_of app time)%Q.
Proof.
  intros Ht. unfold gbps_of, SIZE_TRANS.
  pose proof (u32_range (u32 (global_x app * NREAD_PER_THREAD) * VEC_SIZE))
    as Hr.
  apply Qle_shift_div_l; [exact Ht|].
  rewrite Qmult_0_l.
  apply Qmult_le_0_compat; [|discriminate].
  change 0%Q with (inject_Z 0). rewrite <- Zle_Qle. lia.
Qed.

(** X7.  With a nonzero work group size, fuel for its turns and positive
    times, [buf_bandwidth] ends after exactly 23 measurements: one benchmark and
    one line for each access size [16 * 2^j], [j = 0 .. 22], in this order
    (the sizes from [VEC_SIZE] up to half of [RANGE]), between its header
    and its two report lines; what it reports is the result of running
    [std::max] and [std::min] over the 23 bandwidths from 0 and
    [DBL_MAX]. *)
Theorem buf_bandwidth_sweep (app : App) (fuel : nat) (w : World) :
  nthread_logic_ app <> 0 ->
  (23 < fuel)%nat ->
  (forall j, (j < 23)%nat -> (0 < gpu w (tick w + j)%nat)%Q) ->
  let gs := map (fun j => gbps_of app (gpu w (tick w + j)%nat)) (seq 0 23) in
  let r := fold_left track gs (0%Q, DBL_MAX) in
  buf_bandwidth app fuel w =
  Some (r,
        advance w 23
          (Cout bandwidth_header
           :: flat_map (bandwidth_turn app w) (seq 0 23)
           ++ map Cout (bandwidth_report (fst r) (snd r)))) /\
  (forall j, (j < 23)%nat ->
             VEC_SIZE <= VEC_SIZE * 2 ^ Z.of_nat j < RANGE) /\
  VEC_SIZE * 2 ^ Z.of_nat 22 * 2 = RANGE.
Proof.
  intros Hnt Hfuel _ gs r.
  split; [now apply buf_bandwidth_run|].
  split; [|reflexivity].
  intros j Hj.
  pose proof (pow2_bounds j 22 ltac:(lia)) as Hp.
  change (2 ^ 22) with 4194304 in Hp.
  change VEC_SIZE with 16. unfold RANGE. lia.
Qed.

(** X8.  For every access size of the sweep the mask given to the shader
    is [2^j - 1], and masking an address with it is taking the address
    modulo the number of vectors of that size: [x & addr_mask] is
    [x % nvec_access]. *)
Theorem addr_mask_is_modulo (j : nat) (x : Z) :
  (j < 23)%nat ->
  let access_size := VEC_SIZE * 2 ^ Z.of_nat j in
  nvec_access access_size = 2 ^ Z.of_nat j /\
  addr_mask access_size = 2 ^ Z.of_nat j - 1 /\
  Z.land x (addr_mask access_size) = x mod nvec_access access_size.
Proof.
  intros Hj access_size.
  pose proof (pow2_bounds j 22 ltac:(lia)) as Hp.
  change (2 ^ 22) with 4194304 in Hp.
  assert (Hn : nvec_access access_size = 2 ^ Z.of_nat j).
  { unfold nvec_access, access_size. change VEC_SIZE with 16.
    rewrite Z.mul_comm. apply Z.div_mul. lia. }
  assert (Hm : addr_mask access_size = 2 ^ Z.of_nat j - 1).
  { unfold addr_mask. rewrite Hn. apply u32_small. lia. }
  split; [exact Hn|]. split; [exact Hm|].
  rewrite Hm, Hn, <- Z.land_ones by lia.
  now rewrite Z.ones_equiv, <- Z.sub_1_r.
Qed.

(** X9.  On positive times, the maximum and the minimum that
    [buf_bandwidth] reports enclose each of the 23 bandwidths of the sweep,
    each of the two is one of these bandwidths or its initial value (0,
    [DBL_MAX]), and they satisfy [0 <= min <= max]. *)
Theorem bandwidth_bounds (app : App) (fuel : nat) (w : World) :
  nthread_logic_ app <> 0 ->
  (23 < fuel)%nat ->
  (forall j, (j < 23)%nat -> (0 < gpu w (tick w + j)%nat)%Q) ->
  exists max_bandwidth min_bandwidth w',
    buf_bandwidth app fuel w = Some ((max_bandwidth, min_bandwidth), w') /\
    (forall j, (j < 23)%nat ->
       (min_bandwidth <= gbps_of app (gpu w (tick w + j)%nat)
        <= max_bandwidth)%Q) /\
    (0 <= min_bandwidth)%Q /\ (min_bandwidth <= max_bandwidth)%Q /\
    (max_bandwidth = 0%Q \/
     exists j, (j < 23)%nat /\
               max_bandwidth = gbps_of app (gpu w (tick w + j)%nat)) /\
    (min_bandwidth = DBL_MAX \/
     exists j, (j < 23)%nat /\
               min_bandwidth = gbps_of app (gpu w (tick w + j)%nat)).
Proof.
  intros Hnt Hfuel Hpos.
  pose proof (buf_bandwidth_run app fuel w Hnt Hfuel) as Hrun.
  cbv zeta in Hrun.
  set (gs := map (fun j => gbps_of app (gpu w (tick w + j)%nat)) (seq 0 23))
    in *.
  destruct (fold_track_bounds gs (0%Q, DBL_MAX))
    as (Hmx & Hmn & Hin1 & Hin2 & Hall).
  destruct (fold_left track gs (0%Q, DBL_MAX)) as [mx mn] eqn:Hr.
  cbn [fst snd] in *.
  assert (Hgs : forall g, In g gs <->
                  exists j, (j < 23)%nat /\
                            g = gbps_of app (gpu w (tick w + j)%nat)).
  { intros g. unfold gs. rewrite in_map_iff. split.
    - intros (j & <- & Hj). apply in_seq in Hj. exists j. split; [lia|auto].
    - intros (j & Hj & ->). exists j. split; auto. apply in_seq. lia. }
  assert (Hbetween : forall j, (j < 23)%nat ->
            (mn <= gbps_of app (gpu w (tick w + j)%nat) <= mx)%Q).
  { intros j Hj. apply Hall. apply Hgs. eauto. }
  exists mx, mn. eexists. split; [exact Hrun|].
  split; [exact Hbetween|].
  split.
  { destruct Hin2 as [<- | Hin2]; [discriminate|].
    apply Hgs in Hin2. destruct Hin2 as (j & Hj & ->).
    apply gbps_of_nonneg. auto. }
  split.
  { destruct (Hbetween 0%nat ltac:(lia)). eapply Qle_trans; eassumption. }
  split.
  - destruct Hin1 as [<- | Hin1]; [now left | right; now apply Hgs].
  - destruct Hin2 as [<- | Hin2]; [now left | right; now apply Hgs].
Qed.

Lemma divide_u32 (d z : Z) : (d | 2 ^ 32) -> (d | z) -> (d | u32 z).
Proof.
  intros Hd Hz. unfold u32.
  rewrite Z.mod_eq by lia.
  apply Z.divide_sub_r; [exact Hz|].
  now apply Z.divide_mul_l.
Qed.

(** X10.  [global_x] is a multiple of [local_x], as the comment on line 241
    asks, whenever the product [(NTHREAD / local_x * local_x) * sm_count_ *
    NFLUSH] stays below [2^32] or [local_x] divides [2^32] (is a power of
    two). *)
Theorem global_x_multiple_of_local_x (app : App) :
  0 < nthread_logic_ app ->
  0 <= sm_count_ app ->
  NTHREAD / local_x app * local_x app * sm_count_ app * NFLUSH < 2 ^ 32
  \/ (local_x app | 2 ^ 32) ->
  (local_x app | global_x app).
Proof.
  unfold global_x, local_x. intros Hlx Hsm Hcase.
  set (lx := nthread_logic_ app) in *. set (sm := sm_count_ app) in *.
  assert (Hq : 0 <= NTHREAD / lx).
  { apply Z.div_pos; [change NTHREAD with 52428; lia | lia]. }
  assert (HA : (lx | NTHREAD / lx * lx)) by (apply Z.divide_factor_r).
  destruct Hcase as [Hsmall | Hpow].
  - unfold NFLUSH in *.
    set (A := NTHREAD / lx * lx) in *.
    assert (HA0 : 0 <= A) by (unfold A; nia).
    assert (HA1 : A <= 52428).
    { unfold A. rewrite Z.mul_comm.
      apply (Z.mul_div_le NTHREAD lx Hlx). }
    assert (HAs : 0 <= A * sm) by nia.
    rewrite (u32_small A) by lia.
    rewrite (u32_small (A * sm)) by lia.
    rewrite u32_small by lia.
    now do 2 apply Z.divide_mul_l.
  - apply divide_u32; auto. apply Z.divide_mul_l.
    apply divide_u32; auto. apply Z.divide_mul_l.
    apply divide_u32; auto.
Qed.

Import Examples.

Lemma flat_world_positive (j : nat) :
  (j < 23)%nat -> (0 < gpu (flat_world 1) (tick (flat_world 1) + j)%nat)%Q.
Proof. intros _. reflexivity. Qed.

Lemma buf_bandwidth_sweep_witness :
  option_map (fun r => tick (snd r)) (buf_bandwidth phone_gpu 24 (flat_world 1))
  = Some 23%nat.
Proof.
  destruct (buf_bandwidth_sweep phone_gpu 24 (flat_world 1)) as (Hrun & _).
  - cbn. lia.
  - lia.
  - exact flat_world_positive.
  - rewrite Hrun. reflexivity.
Defined.

Lemma addr_mask_is_modulo_witness :
  nvec_access 128 = 8 /\ addr_mask 128 = 7 /\ Z.land 29 (addr_mask 128) = 5.
Proof.
  destruct (addr_mask_is_modulo 3 29) as (Hn & Hm & Hl); [lia|].
  split; [exact Hn | split; [exact Hm | exact Hl]].
Defined.

Lemma bandwidth_bounds_witness :
  exists max_bandwidth min_bandwidth w',
    buf_bandwidth phone_gpu 24 (flat_world 1)
    = Some ((max_bandwidth, min_bandwidth), w') /\
    (0 <= min_bandwidth)%Q /\ (min_bandwidth <= max_bandwidth)%Q.
Proof.
  destruct (bandwidth_bounds phone_gpu 24 (flat_world 1))
    as (mx & mn & w' & Hrun & _ & H0 & Hle & _).
  - cbn. lia.
  - lia.
  - exact flat_world_positive.
  - exists mx, mn, w'. auto.
Defined.

Lemma global_x_multiple_of_local_x_witness :
  global_x phone_gpu = 835584 /\ (1024 | global_x phone_gpu).
Proof.
  split; [reflexivity|].
  apply (global_x_multiple_of_local_x phone_gpu).
  - cbn. lia.
  - cbn. lia.
  - left. vm_compute. reflexivity.
Defined.

End BandwidthFacts.

(** ** The constructor and [main] *)

Module MainFacts.
Import App Bandwidth Main AppFacts RunFacts BandwidthFacts.
Local Open Scope string_scope.
Local Open Scope list_scope.
Local Open Scope Z_scope.

Section WithDetector.
Context {D : Type} `{JumpFinder D}.
Variable ensure_min_niter : Z -> (Z -> M Q) -> M Z.



End WithDetector.

Import Examples.


End MainFacts.
